(** * A shallow embedding of [main.py]: the vector-store reconciler
    ([ensure_vector_store]), the history replayer ([paint_history]), the
    status table ([update_status]) and the streamed turn ([run_agent]).

    Python strings are byte strings (UTF-8), dictionaries are [gmap]s with
    string keys, exceptions are an explicit [result] type, and the calls
    that leave the program (the OpenAI client, [base64.b64decode], the
    event stream of the runner) are taken through interfaces. *)

From Stdlib Require Import Ascii NArith.
From Stdlib Require String.
From Stdlib.Strings Require Byte.
From stdpp Require Import base option list strings gmap fin_maps pretty.

Set Warnings "-register-all".

(** ** Python values, exceptions and results *)

(** The JSON-like values stored in the conversation items. *)
Inductive pyval :=
| PNone
| PStr (s : string)
| PList (l : list pyval)
| PDict (d : gmap string pyval).

(** The exceptions (subclasses of [Exception]) the modelled code can meet.
    The first three are raised by the OpenAI client. *)
Inductive exn :=
| NotFoundError
| PermissionDeniedError
| APIConnectionError
| KeyError
| IndexError
| TypeError
| AttributeError
| ValueError
| BinasciiError.

Inductive result (A : Type) :=
| Ok (a : A)
| Raise (e : exn).
Arguments Ok {A} a.
Arguments Raise {A} e.

Abbreviation bytes := (list Byte.byte).

(** What the interpreter and its standard library provide: the decoder
    [base64.b64decode] on a [str] argument, and the [repr] used when an
    f-string formats a list or a dict. *)
Class PyRuntime := {
  b64decode : string → result bytes;
  repr_container : pyval → string;
}.

(** ** String helpers *)

(** [s.replace(old, new)] for a non-empty [old]: occurrences are replaced
    from left to right and do not overlap; [skip] counts the characters of
    the occurrence just replaced that are still to be dropped. *)
Fixpoint replace_from (old new : string) (skip : nat) (s : string) : string :=
  match s with
  | EmptyString => EmptyString
  | String c s' =>
      match skip with
      | S k => replace_from old new k s'
      | O =>
          if String.prefix old s
          then new +:+ replace_from old new (String.length old - 1) s'
          else String c (replace_from old new 0 s')
      end
  end.

Definition replace (old new s : string) : string := replace_from old new 0 s.

(** [text.replace("$", "\$")]: in Python the unknown escape [\$] keeps its
    backslash, so the replacement is the two characters backslash, dollar. *)
Definition escape_dollar (text : string) : string := replace "$" "\$" text.

(** [needle in s] on two strings. *)
Fixpoint substring_in (needle s : string) : bool :=
  String.prefix needle s ||
  match s with
  | EmptyString => false
  | String _ s' => substring_in needle s'
  end.

(** ** Dynamic operations on values *)

(** [v == s] for a string literal [s]. *)
Definition py_eq_str (v : pyval) (s : string) : bool :=
  match v with
  | PStr t => bool_decide (t = s)
  | _ => false
  end.

(** [k in v] for a string literal [k]. *)
Definition py_contains (k : string) (v : pyval) : result bool :=
  match v with
  | PNone => Raise TypeError
  | PStr s => Ok (substring_in k s)
  | PList l => Ok (existsb (λ x, py_eq_str x k) l)
  | PDict d => Ok (bool_decide (is_Some (d !! k)))
  end.

(** [v[k]] for a string literal [k]. *)
Definition py_getitem_key (v : pyval) (k : string) : result pyval :=
  match v with
  | PDict d => match d !! k with Some x => Ok x | None => Raise KeyError end
  | _ => Raise TypeError
  end.

(** The continuation bytes (binary 10xxxxxx) that follow the first byte of
    a UTF-8 encoded character. *)
Fixpoint utf8_continuation (s : string) : string :=
  match s with
  | EmptyString => EmptyString
  | String c s' =>
      if (128 <=? N_of_ascii c)%N && (N_of_ascii c <? 192)%N
      then String c (utf8_continuation s')
      else EmptyString
  end.

(** [v[0]]; on a string it is the one-character string of its first
    character. *)
Definition py_getitem_0 (v : pyval) : result pyval :=
  match v with
  | PNone => Raise TypeError
  | PStr EmptyString => Raise IndexError
  | PStr (String c s') => Ok (PStr (String c (utf8_continuation s')))
  | PList [] => Raise IndexError
  | PList (x :: _) => Ok x
  | PDict _ => Raise KeyError
  end.

(** [message[k]] on a conversation item, which is a dict. *)
Definition item_get (message : gmap string pyval) (k : string) : result pyval :=
  match message !! k with
  | Some x => Ok x
  | None => Raise KeyError
  end.

(** [v.replace("$", "\$")]: only strings have the method. *)
Definition py_escape_dollar (v : pyval) : result string :=
  match v with
  | PStr s => Ok (escape_dollar s)
  | _ => Raise AttributeError
  end.

(** How an f-string formats a value. *)
Definition py_format `{PyRuntime} (v : pyval) : string :=
  match v with
  | PNone => "None"
  | PStr s => s
  | _ => repr_container v
  end.

(** [base64.b64decode(v)]. *)
Definition base64_b64decode `{PyRuntime} (v : pyval) : result bytes :=
  match v with
  | PStr s => b64decode s
  | _ => Raise TypeError
  end.

(** ** The remote backend and the session state *)

(** The two calls of the OpenAI client that [ensure_vector_store] makes, on
    a backend whose state is [W]: [client.vector_stores.retrieve] (a
    read-only lookup that raises when the id cannot be resolved) and
    [client.vector_stores.create] (which returns the id of the new store). *)
Class VectorStores (W : Type) := {
  vector_stores_retrieve : W → string → W * result unit;
  vector_stores_create : W → string → W * result string;
}.

(** The requests sent to the backend with their answers, in the order
    they were sent. *)
Inductive api_exchange :=
| Retrieved (vector_store_id : string) (answer : result unit)
| Created (name : string) (answer : result string).

(** The tools handed to the agent; only the file search tool refers to a
    vector store. *)
Inductive Tool :=
| WebSearchTool
| FileSearchTool (vector_store_ids : list string) (max_num_results : nat)
| ImageGenerationTool
| CodeInterpreterTool
| HostedMCPTool (server_label : string).

Record Agent := {
  agent_name : string;
  tools : list Tool;
}.

(** The keys of [st.session_state] that carry data between reruns:
    ["VECTOR_STORE_ID"] and ["agent"]; [None] is an absent key. *)
Record SessionState := {
  VECTOR_STORE_ID : option string;
  agent : option Agent;
}.

(** The process session, the backend and the log of requests. *)
Record App (W : Type) := {
  session_state : SessionState;
  backend : W;
  api_log : list api_exchange;
}.
Arguments session_state {W} _.
Arguments backend {W} _.
Arguments api_log {W} _.

Definition VECTOR_STORE_NAME : string := "chatgpt-clone-store".
Definition DEFAULT_VECTOR_STORE_ID : string := "vs_68a0815f62388191a9c3701ceb237234".

(** [if cand:] is false on [None] and on the empty string. *)
Definition truthy (cand : option string) : option string :=
  match cand with
  | Some EmptyString => None
  | other => other
  end.

Section reconciler.
Context {W : Type} `{VectorStores W}.

(** [st.session_state["VECTOR_STORE_ID"] = id]. *)
Definition remember (id : string) (app : App W) : App W :=
  {| session_state :=
       {| VECTOR_STORE_ID := Some id; agent := agent (session_state app) |};
     backend := backend app;
     api_log := api_log app |}.

(** One request: the backend moves on and the exchange is logged. *)
Definition sent (exchange : api_exchange) (w : W) (app : App W) : App W :=
  {| session_state := session_state app;
     backend := w;
     api_log := api_log app ++ [exchange] |}.

(** The [for cand in candidates] loop; [Some cand] is the [return cand]
    inside it, [None] is the loop running to its end. An exception of
    [retrieve] is caught by [except Exception: pass]. *)
Fixpoint probe_candidates (candidates : list (option string)) (app : App W)
  : App W * option string :=
  match candidates with
  | [] => (app, None)
  | cand :: rest =>
      match truthy cand with
      | Some id =>
          let '(w, r) := vector_stores_retrieve (backend app) id in
          let app' := sent (Retrieved id r) w app in
          match r with
          | Ok _ => (remember id app', Some id)
          | Raise _ => probe_candidates rest app'
          end
      | None => probe_candidates rest app
      end
  end.

Definition ensure_vector_store (app : App W) : App W * result string :=
  let vs_id := VECTOR_STORE_ID (session_state app) in
  let candidates := [vs_id; Some DEFAULT_VECTOR_STORE_ID] in
  match probe_candidates candidates app with
  | (app', Some cand) => (app', Ok cand)
  | (app', None) =>
      let '(w, r) := vector_stores_create (backend app') VECTOR_STORE_NAME in
      let app'' := sent (Created VECTOR_STORE_NAME r) w app' in
      match r with
      | Ok id => (remember id app'', Ok id)
      | Raise e => (app'', Raise e)
      end
  end.
End reconciler.

(** ** The render sink *)

(** What is put inside a chat bubble: [st.write], [st.image] (of a value
    of the history or of decoded bytes) and [st.code]. *)
Inductive widget :=
| Write (text : string)
| Image (src : pyval)
| ImageBytes (data : bytes)
| Code (body : pyval).

(** The operations on the screen. [ShowBubble] is a [with st.chat_message]
    block with what was written in it; the other four update the status
    widget and the three placeholders of the running turn:
    [status_container.update], [text_placeholder.write],
    [code_placeholder.code] and [image_placeholder.image]. *)
Inductive RenderOp :=
| ShowBubble (role : pyval) (body : list widget)
| SetStatus (label state : string)
| SetText (text : string)
| SetCode (code : string)
| SetImage (data : bytes).

#[global] Instance result_ret : MRet result := @Ok.
#[global] Instance result_bind : MBind result := λ A B k r,
  match r with
  | Ok a => k a
  | Raise e => Raise e
  end.

(** ** Replaying the history: [paint_history] *)

Section replay.
Context `{PyRuntime}.

(** [for part in content: if "image_url" in part: st.image(...)], with
    the widgets shown before an exception kept. *)
Fixpoint paint_parts (parts : list pyval) : list widget * result unit :=
  match parts with
  | [] => ([], Ok ())
  | part :: rest =>
      match py_contains "image_url" part with
      | Raise e => ([], Raise e)
      | Ok false => paint_parts rest
      | Ok true =>
          match py_getitem_key part "image_url" with
          | Raise e => ([], Raise e)
          | Ok src =>
              let '(shown, r) := paint_parts rest in (Image src :: shown, r)
          end
      end
  end.

(** The body of [with st.chat_message(message["role"])]. *)
Definition paint_role_body (role : pyval) (message : gmap string pyval)
  : list widget * result unit :=
  if py_eq_str role "user" then
    match item_get message "content" with
    | Raise e => ([], Raise e)
    | Ok (PStr content) => ([Write content], Ok ())
    | Ok (PList content) => paint_parts content
    | Ok _ => ([], Ok ())
    end
  else
    if from_option (λ t, py_eq_str t "message") false (message !! "type") then
      match
        content ← item_get message "content";
        first ← py_getitem_0 content;
        text ← py_getitem_key first "text";
        py_escape_dollar text
      with
      | Raise e => ([], Raise e)
      | Ok escaped => ([Write escaped], Ok ())
      end
    else ([], Ok ()).

(** Step 4-1: [if "role" in message]. *)
Definition paint_role (message : gmap string pyval)
  : list RenderOp * result unit :=
  match message !! "role" with
  | None => ([], Ok ())
  | Some role =>
      let '(body, r) := paint_role_body role message in
      ([ShowBubble role body], r)
  end.

Definition ai_bubble (body : list widget) : RenderOp :=
  ShowBubble (PStr "ai") body.

(** Step 4-2: [if "type" in message], the tool-call records. *)
Definition paint_type (message : gmap string pyval)
  : list RenderOp * result unit :=
  match message !! "type" with
  | None => ([], Ok ())
  | Some message_type =>
      if py_eq_str message_type "web_search_call" then
        ([ai_bubble [Write "🔍 Searched the web..."]], Ok ())
      else if py_eq_str message_type "file_search_call" then
        ([ai_bubble [Write "🗂️ Searched your files..."]], Ok ())
      else if py_eq_str message_type "image_generation_call" then
        match item_get message "result" ≫= base64_b64decode with
        | Raise e => ([], Raise e)
        | Ok image => ([ai_bubble [ImageBytes image]], Ok ())
        end
      else if py_eq_str message_type "code_interpreter_call" then
        match item_get message "code" with
        | Raise e => ([ai_bubble []], Raise e)
        | Ok code => ([ai_bubble [Code code]], Ok ())
        end
      else if py_eq_str message_type "mcp_list_tools" then
        match item_get message "server_label" with
        | Raise e => ([ai_bubble []], Raise e)
        | Ok server_label =>
            ([ai_bubble [Write ("Listed " +:+ py_format server_label
                                +:+ "'s tools")]], Ok ())
        end
      else if py_eq_str message_type "mcp_call" then
        match
          server_label ← item_get message "server_label";
          name ← item_get message "name";
          arguments ← item_get message "arguments";
          mret ("Called " +:+ py_format server_label +:+ "'s "
                +:+ py_format name +:+ " with args " +:+ py_format arguments)
        with
        | Raise e => ([ai_bubble []], Raise e)
        | Ok line => ([ai_bubble [Write line]], Ok ())
        end
      else ([], Ok ())
  end.

(** One round of the [for message in messages] loop. *)
Definition paint_message (message : gmap string pyval)
  : list RenderOp * result unit :=
  match paint_role message with
  | (shown, Raise e) => (shown, Raise e)
  | (shown, Ok _) =>
      let '(shown', r) := paint_type message in (shown ++ shown', r)
  end.

(** [paint_history] on the items [session.get_items()] returned; the
    operations emitted before an exception stay on the screen. *)
Fixpoint paint_history (messages : list (gmap string pyval))
  : list RenderOp * result unit :=
  match messages with
  | [] => ([], Ok ())
  | message :: rest =>
      match paint_message message with
      | (shown, Raise e) => (shown, Raise e)
      | (shown, Ok _) =>
          let '(shown', r) := paint_history rest in (shown ++ shown', r)
      end
  end.
End replay.

(** ** The status table: [update_status] *)

(** The status widget: its label and its state (["running"] or
    ["complete"]). *)
Record Status := {
  label : string;
  state : string;
}.

Definition status_messages : gmap string (string * string) :=
  list_to_map [
    ("response.web_search_call.completed", ("✅ Web search completed.", "complete"));
    ("response.web_search_call.in_progress", ("🔍 Starting web search...", "running"));
    ("response.web_search_call.searching", ("🔍 Web search in progress...", "running"));
    ("response.file_search_call.completed", ("✅ File search completed.", "complete"));
    ("response.file_search_call.in_progress", ("🗂️ Starting file search...", "running"));
    ("response.file_search_call.searching", ("🗂️ File search in progress...", "running"));
    ("response.image_generation_call.generating", ("🎨 Drawing image...", "running"));
    ("response.image_generation_call.in_progress", ("🎨 Drawing image...", "running"));
    ("response.code_interpreter_call_code.done", ("🤖 Ran code.", "complete"));
    ("response.code_interpreter_call.completed", ("🤖 Ran code.", "complete"));
    ("response.code_interpreter_call.in_progress", ("🤖 Running code...", "complete"));
    ("response.code_interpreter_call.interpreting", ("🤖 Running code...", "complete"));
    ("response.mcp_call.completed", ("⚒️ Called MCP tool", "complete"));
    ("response.mcp_call.failed", ("⚒️ Error calling MCP tool", "complete"));
    ("response.mcp_call.in_progress", ("⚒️ Calling MCP tool...", "running"));
    ("response.mcp_list_tools.completed", ("⚒️ Listed MCP tools", "complete"));
    ("response.mcp_list_tools.failed", ("⚒️ Error listing MCP tools", "complete"));
    ("response.mcp_list_tools.in_progress", ("⚒️ Listing MCP tools", "running"));
    ("response.completed", (" ", "complete"))
  ].

(** [update_status(status_container, event)]: the widget after the call
    and the update it received, if any. *)
Definition update_status (status_container : Status) (event : string)
  : Status * list RenderOp :=
  match status_messages !! event with
  | Some (label, state) =>
      ({| label := label; state := state |}, [SetStatus label state])
  | None => (status_container, [])
  end.

(** ** One streamed turn: [run_agent] *)

(** [event.data] of a raw response event: its type tag and the fields the
    loop reads; an absent field is a missing attribute. *)
Record EventData := {
  data_type : string;
  delta : option string;
  partial_image_b64 : option string;
}.

Record StreamEvent := {
  event_type : string;
  data : option EventData;
}.

(** The buffers of a turn: the local variables [response] and
    [code_response], what [image_placeholder] shows and the status
    widget. *)
Record TurnAccumulator := {
  response : string;
  code_response : string;
  image_placeholder : option bytes;
  status_container : Status;
}.

(** Code of a turn: it updates the buffers, emits render operations and
    may raise; what was emitted before an exception stays emitted. *)
Definition Turn (A : Type) : Type :=
  TurnAccumulator → TurnAccumulator * list RenderOp * result A.

Definition turn_ret {A} (a : A) : Turn A := λ acc, (acc, [], Ok a).

Definition turn_bind {A B} (m : Turn A) (k : A → Turn B) : Turn B := λ acc,
  match m acc with
  | (acc', shown, Ok a) =>
      let '(acc'', shown', r) := k a acc' in (acc'', shown ++ shown', r)
  | (acc', shown, Raise e) => (acc', shown, Raise e)
  end.

Notation "'do' x <- m ; k" := (turn_bind m (λ x, k))
  (at level 10, x name, m at level 100, k at level 200,
   format "'[v' 'do'  x  <-  m ; '/' k ']'").
Notation "m ;; k" := (turn_bind m (λ _, k))
  (at level 100, k at level 200, right associativity).

(** Reading an attribute that may be missing. *)
Definition getattr {A} (field : option A) : Turn A := λ acc,
  (acc, [], match field with Some a => Ok a | None => Raise AttributeError end).

Definition lift {A} (r : result A) : Turn A := λ acc, (acc, [], r).

Definition when (b : bool) (body : Turn unit) : Turn unit :=
  if b then body else turn_ret ().

Definition is_type (d : EventData) (tag : string) : bool :=
  bool_decide (data_type d = tag).

Section turn.
Context `{PyRuntime}.

Definition on_status (event : string) : Turn unit := λ acc,
  let '(status_container', shown) := update_status (status_container acc) event in
  ({| response := response acc;
      code_response := code_response acc;
      image_placeholder := image_placeholder acc;
      status_container := status_container' |}, shown, Ok ()).

(** 6-1: [response += delta] and [text_placeholder.write(...)]. *)
Definition on_text_delta (text : string) : Turn unit := λ acc,
  let response' := response acc +:+ text in
  ({| response := response';
      code_response := code_response acc;
      image_placeholder := image_placeholder acc;
      status_container := status_container acc |},
   [SetText (escape_dollar response')], Ok ()).

(** 6-2: [code_response += delta] and [code_placeholder.code(...)]. *)
Definition on_code_delta (text : string) : Turn unit := λ acc,
  let code_response' := code_response acc +:+ text in
  ({| response := response acc;
      code_response := code_response';
      image_placeholder := image_placeholder acc;
      status_container := status_container acc |},
   [SetCode code_response'], Ok ()).

(** 6-3: [image_placeholder.image(image)]. *)
Definition on_partial_image (image : bytes) : Turn unit := λ acc,
  ({| response := response acc;
      code_response := code_response acc;
      image_placeholder := Some image;
      status_container := status_container acc |},
   [SetImage image], Ok ()).

(** The body of [async for event in stream.stream_events()]. *)
Definition handle_event (event : StreamEvent) : Turn unit :=
  when (bool_decide (event_type event = "raw_response_event")) (
    do d <- getattr (data event);
    on_status (data_type d);;
    when (is_type d "response.output_text.delta") (
      do text <- getattr (delta d);
      on_text_delta text);;
    if is_type d "response.code_interpreter_call_code.delta" then
      do text <- getattr (delta d);
      on_code_delta text
    else
      when (is_type d "response.image_generation_call.partial_image") (
        do payload <- getattr (partial_image_b64 d);
        do image <- lift (b64decode payload);
        on_partial_image image)).

(** The whole loop; it stops at the first exception. *)
Fixpoint stream_events (events : list StreamEvent) : Turn unit :=
  match events with
  | [] => turn_ret ()
  | event :: rest => handle_event event;; stream_events rest
  end.
End turn.

(** [st.status("⏳", expanded=False)] and the three empty placeholders,
    with [response] and [code_response] set to the empty string; a status
    widget is created in the state ["running"]. *)
Definition fresh_turn : TurnAccumulator :=
  {| response := EmptyString;
     code_response := EmptyString;
     image_placeholder := None;
     status_container := {| label := "⏳"; state := "running" |} |}.

(** What a call of [run_agent] did: the buffers at its end, the render
    operations in the order they were emitted, how it ended, and the
    arguments [Runner.run_streamed] was called with (if it was). *)
Record TurnResult := {
  final : TurnAccumulator;
  rendered : list RenderOp;
  outcome : result unit;
  streamed : option (Agent * string);
}.

Section run.
Context {W : Type} `{VectorStores W} `{PyRuntime}.

(** [run_agent(message)], with the global [agent] and the events the
    runner's stream yields as arguments. The result of the call of
    [ensure_vector_store] is bound to [vs_id] and not used again. The
    chat bubble that holds the four widgets, and the copies of the
    placeholders kept in the session state, are not recorded. *)
Definition run_agent (agent : Agent) (message : string)
    (events : list StreamEvent) (app : App W) : App W * TurnResult :=
  match ensure_vector_store app with
  | (app', Raise e) =>
      (app', {| final := fresh_turn; rendered := [];
                outcome := Raise e; streamed := None |})
  | (app', Ok vs_id) =>
      let '(acc, shown, r) := stream_events events fresh_turn in
      (app', {| final := acc; rendered := shown;
                outcome := r; streamed := Some (agent, message) |})
  end.
End run.

(** ** One run of the script *)

(** The [Agent(...)] built in step 2: its file search tool is tied to the
    vector store id the script has at that moment. *)
Definition new_agent (VECTOR_STORE_ID : string) : Agent :=
  {| agent_name := "ChatGPT Clone";
     tools := [WebSearchTool;
               FileSearchTool [VECTOR_STORE_ID] 3;
               ImageGenerationTool;
               CodeInterpreterTool;
               HostedMCPTool "Context7"] |}.

(** The vector stores a file search of the agent reads. *)
Definition file_search_ids (a : Agent) : list string :=
  flat_map (λ t, match t with
                 | FileSearchTool ids _ => ids
                 | _ => []
                 end) (tools a).

Record ScriptResult := {
  painted : list RenderOp;
  turn : option TurnResult;
  script_outcome : result unit;
}.

Section script.
Context {W : Type} `{VectorStores W} `{PyRuntime}.

(** [if "agent" not in st.session_state: st.session_state["agent"] = ...]. *)
Definition keep_agent (a : Agent) (app : App W) : App W :=
  {| session_state :=
       {| VECTOR_STORE_ID := VECTOR_STORE_ID (session_state app);
          agent := Some a |};
     backend := backend app;
     api_log := api_log app |}.

(** The script from top to bottom, as Streamlit runs it on every
    refresh: steps 1 and 2, the replay of the stored [history] (step 4)
    and, for a submitted [prompt], the echo of its text and the turn
    (step 7). An exception ends the run. Left out: the opening of the
    SQLite session (step 3), the emptying of the old placeholders, the
    uploaded files of a prompt and the sidebar (step 8). *)
Definition script (history : list (gmap string pyval)) (prompt : option string)
    (events : list StreamEvent) (app : App W) : App W * ScriptResult :=
  match ensure_vector_store app with
  | (app1, Raise e) =>
      (app1, {| painted := []; turn := None; script_outcome := Raise e |})
  | (app1, Ok VECTOR_STORE_ID) =>
      let the_agent :=
        default (new_agent VECTOR_STORE_ID) (agent (session_state app1)) in
      let app2 := keep_agent the_agent app1 in
      match paint_history history with
      | (shown, Raise e) =>
          (app2, {| painted := shown; turn := None; script_outcome := Raise e |})
      | (shown, Ok _) =>
          match prompt with
          | Some (String c text) =>
              let echo := ShowBubble (PStr "human") [Write (String c text)] in
              let '(app3, t) := run_agent the_agent (String c text) events app2 in
              (app3, {| painted := shown ++ [echo]; turn := Some t;
                        script_outcome := outcome t |})
          | _ =>
              (app2, {| painted := shown; turn := None; script_outcome := Ok () |})
          end
      end
  end.
End script.

(** ** A simulated backend and runtime, to run the model *)

(** A backend that holds the ids of the stores that exist, answers the
    next requests as [outages] says ([true]: the backend cannot be
    reached for that request; an exhausted list: reachable) and numbers
    the stores it creates. *)
Record Remote := {
  stores : list string;
  outages : list bool;
  issued : nat;
}.

Definition remote_retrieve (r : Remote) (id : string) : Remote * result unit :=
  let r' := {| stores := stores r; outages := tail (outages r); issued := issued r |} in
  if default false (head (outages r)) then (r', Raise APIConnectionError)
  else if bool_decide (id ∈ stores r) then (r', Ok ())
  else (r', Raise NotFoundError).

Definition remote_create (r : Remote) (name : string) : Remote * result string :=
  if default false (head (outages r)) then
    ({| stores := stores r; outages := tail (outages r); issued := issued r |},
     Raise APIConnectionError)
  else
    let id := "vs_new_" +:+ pretty (issued r) in
    ({| stores := id :: stores r; outages := tail (outages r);
        issued := S (issued r) |}, Ok id).

#[global] Instance remote_vector_stores : VectorStores Remote :=
  {| vector_stores_retrieve := remote_retrieve;
     vector_stores_create := remote_create |}.

(** The stores are deleted behind the back of the process. *)
Definition delete_out_of_band (id : string) (app : App Remote) : App Remote :=
  {| session_state := session_state app;
     backend := {| stores := filter (λ x, x ≠ id) (stores (backend app));
                   outages := outages (backend app);
                   issued := issued (backend app) |};
     api_log := api_log app |}.

(** The value of a character of the base64 alphabet. *)
Definition b64_value (c : ascii) : option N :=
  let n := N_of_ascii c in
  if (65 <=? n)%N && (n <=? 90)%N then Some (n - 65)%N
  else if (97 <=? n)%N && (n <=? 122)%N then Some (n - 71)%N
  else if (48 <=? n)%N && (n <=? 57)%N then Some (n + 4)%N
  else if (n =? 43)%N then Some 62%N
  else if (n =? 47)%N then Some 63%N
  else None.

Definition byte_of (n : N) : Byte.byte := default Byte.x00 (Byte.of_N n).

(** The lenient decoder of CPython ([binascii.a2b_base64] without strict
    mode): characters outside the alphabet are skipped, enough padding
    ends the input, an incomplete group is an error. *)
Fixpoint a2b_base64 (s : string) (quad_pos : nat) (leftchar : N) (pads : nat)
    (out : bytes) : result bytes :=
  match s with
  | EmptyString =>
      if bool_decide (quad_pos = 0) then Ok (reverse out) else Raise BinasciiError
  | String c s' =>
      if bool_decide (c = "="%char) then
        if bool_decide (2 ≤ quad_pos) then
          if bool_decide (4 ≤ quad_pos + S pads) then Ok (reverse out)
          else a2b_base64 s' quad_pos leftchar (S pads) out
        else a2b_base64 s' quad_pos leftchar pads out
      else
        match b64_value c with
        | None => a2b_base64 s' quad_pos leftchar pads out
        | Some v =>
            match quad_pos with
            | 0 => a2b_base64 s' 1 v 0 out
            | 1 => a2b_base64 s' 2 (N.land v 15) 0
                     (byte_of (N.lor (N.shiftl leftchar 2) (N.shiftr v 4)) :: out)
            | 2 => a2b_base64 s' 3 (N.land v 3) 0
                     (byte_of (N.lor (N.shiftl leftchar 4) (N.shiftr v 2)) :: out)
            | _ => a2b_base64 s' 0 0 0
                     (byte_of (N.lor (N.shiftl leftchar 6) v) :: out)
            end
        end
  end.

Fixpoint is_ascii (s : string) : bool :=
  match s with
  | EmptyString => true
  | String c s' => (N_of_ascii c <? 128)%N && is_ascii s'
  end.

(** A runtime to run the model on examples. The decoder refuses a string
    that is not ASCII and then decodes leniently; the [repr] of a list or
    a dict is not reproduced, a fixed marker stands for it. *)
#[global] Instance example_runtime : PyRuntime :=
  {| b64decode := λ s,
       if is_ascii s then a2b_base64 s 0 0 0 [] else Raise ValueError;
     repr_container := λ _, "<container>" |}.

(** ** Example events, used in the statements below *)

(** A raw response event that carries only its tag. *)
Definition status_event (tag : string) : StreamEvent :=
  {| event_type := "raw_response_event";
     data := Some {| data_type := tag; delta := None; partial_image_b64 := None |} |}.

Definition text_delta (text : string) : StreamEvent :=
  {| event_type := "raw_response_event";
     data := Some {| data_type := "response.output_text.delta";
                     delta := Some text; partial_image_b64 := None |} |}.

Definition code_delta (text : string) : StreamEvent :=
  {| event_type := "raw_response_event";
     data := Some {| data_type := "response.code_interpreter_call_code.delta";
                     delta := Some text; partial_image_b64 := None |} |}.

Definition partial_image (payload : string) : StreamEvent :=
  {| event_type := "raw_response_event";
     data := Some {| data_type := "response.image_generation_call.partial_image";
                     delta := None; partial_image_b64 := Some payload |} |}.

(** The tags of the status table that announce a call in progress, and
    those that announce a completion. *)
Definition in_progress_tags : list string :=
  ["response.web_search_call.in_progress";
   "response.file_search_call.in_progress";
   "response.image_generation_call.in_progress";
   "response.code_interpreter_call.in_progress";
   "response.mcp_call.in_progress";
   "response.mcp_list_tools.in_progress"].

Definition completed_tags : list string :=
  ["response.web_search_call.completed";
   "response.file_search_call.completed";
   "response.code_interpreter_call.completed";
   "response.mcp_call.completed";
   "response.mcp_list_tools.completed";
   "response.completed"].

(** The texts, and the images, handed to the sink, in order. *)
Definition text_updates (shown : list RenderOp) : list string :=
  omap (λ op, match op with SetText t => Some t | _ => None end) shown.

Definition image_updates (shown : list RenderOp) : list bytes :=
  omap (λ op, match op with SetImage d => Some d | _ => None end) shown.

(** Every dollar sign of [s] stands right after a backslash;
    [after_backslash] tells whether the character before [s] is one. *)
Fixpoint dollars_escaped_from (after_backslash : bool) (s : string) : bool :=
  match s with
  | EmptyString => true
  | String c s' =>
      if bool_decide (c = "$"%char)
      then after_backslash && dollars_escaped_from false s'
      else dollars_escaped_from (bool_decide (c = "\"%char)) s'
  end.

Definition dollars_escaped (s : string) : bool := dollars_escaped_from false s.

(** The escaping in the words of the specification: a backslash is put
    before each dollar sign and nothing else changes. *)
Fixpoint backslash_each_dollar (s : string) : string :=
  match s with
  | EmptyString => EmptyString
  | String c s' =>
      if bool_decide (c = "$"%char)
      then String "\" (String "$" (backslash_each_dollar s'))
      else String c (backslash_each_dollar s')
  end.

(** The tool-call kinds [paint_history] has a rule for. *)
Definition known_types : list string :=
  ["web_search_call"; "file_search_call"; "image_generation_call";
   "code_interpreter_call"; "mcp_list_tools"; "mcp_call"].

(** An item no rule of [paint_history] applies to: it has no role, and its
    type, if it has one, is none of the known ones. *)
Definition unknown_kind (message : gmap string pyval) : Prop :=
  message !! "role" = None ∧
  ∀ t, message !! "type" = Some t → Forall (λ k, py_eq_str t k = false) known_types.

(** The tags the loop of [run_agent] reads a payload for. *)
Definition payload_tags : list string :=
  ["response.output_text.delta";
   "response.code_interpreter_call_code.delta";
   "response.image_generation_call.partial_image"].

(** An event the loop reads an image from. *)
Definition is_partial_image (event : StreamEvent) : bool :=
  bool_decide (event_type event = "raw_response_event") &&
  from_option (λ d, is_type d "response.image_generation_call.partial_image")
              false (data event).

(** Within a turn a buffer grows or is replaced: the text and the code
    are extended at their end, and a shown image stays or gives way to
    another one. *)
Definition grows (before after : TurnAccumulator) : Prop :=
  (∃ d, response after = response before +:+ d) ∧
  (∃ d, code_response after = code_response before +:+ d) ∧
  (is_Some (image_placeholder before) → is_Some (image_placeholder after)).

(** A relation between the buffers before a piece of the turn, what it
    emitted and the buffers after it; [respects R m] says the piece [m]
    stays within [R] from every start, whether it raises or not. *)
Definition step_rel : Type := TurnAccumulator → list RenderOp → TurnAccumulator → Prop.

Definition respects {A} (R : step_rel) (m : Turn A) : Prop :=
  ∀ acc, R acc (m acc).1.2 (m acc).1.1.

(** Relations that hold of doing nothing and of doing one thing after
    another. *)
Record compositional (R : step_rel) : Prop := {
  comp_refl : ∀ acc, R acc [] acc;
  comp_trans : ∀ a b c shown shown',
    R a shown b → R b shown' c → R a (shown ++ shown') c;
}.

(** Every text handed to the sink has its dollar signs escaped. *)
Definition text_escaped : step_rel := λ _ shown _,
  Forall (λ t, dollars_escaped t = true) (text_updates shown).

(** No image is shown and the image buffer is left alone. *)
Definition no_image : step_rel := λ before shown after,
  image_placeholder after = image_placeholder before ∧ image_updates shown = [].

(** The status widget is left alone. *)
Definition same_status : step_rel := λ before shown after,
  status_container after = status_container before.

(** A probe that raised, whatever the exception. *)
Definition failed_probe (x : api_exchange) : bool :=
  match x with
  | Retrieved _ (Raise _) => true
  | _ => false
  end.

(** The ids of the stores that were created, read off the log. *)
Definition created_ids (log : list api_exchange) : list string :=
  omap (λ x, match x with Created _ (Ok id) => Some id | _ => None end) log.

(** A process session that starts: nothing is remembered, nothing was
    sent. *)
Definition new_session (r : Remote) : App Remote :=
  {| session_state := {| VECTOR_STORE_ID := None; agent := None |};
     backend := r;
     api_log := [] |}.

(** A process session that remembers [id]. *)
Definition session_with (id : string) (r : Remote) : App Remote :=
  {| session_state := {| VECTOR_STORE_ID := Some id; agent := None |};
     backend := r;
     api_log := [] |}.

(** ** The uploads of a prompt (step 7) *)

(** A file of [prompt.files]: its name, its MIME type and its content. *)
Record UploadedFile := {
  file_name : string;
  file_type : string;
  file_value : bytes;
}.

Record Prompt := {
  prompt_text : string;
  prompt_files : list UploadedFile;
}.

(** The two calls of the OpenAI client an upload of a text file makes:
    [client.files.create(file=(name, value), purpose="user_data")], whose
    answer carries the id of the stored file, and
    [client.vector_stores.files.create(vector_store_id=..., file_id=...)]. *)
Class Files (W : Type) := {
  files_create : W → string → bytes → W * result string;
  vector_stores_files_create : W → string → string → W * result unit;
}.

(** [session.add_items(items)] on a conversation store whose state is [S]. *)
Class Session (S : Type) := {
  add_items : S → list (gmap string pyval) → S * result unit;
}.

(** [base64.b64encode(value).decode("utf-8")]. *)
Class PyEncode := {
  b64encode : bytes → string;
}.

(** The requests an upload sends, with their answers. *)
Inductive upload_exchange :=
| FileCreated (name : string) (value : bytes) (answer : result string)
| FileAttached (vector_store_id file_id : string) (answer : result unit)
| ItemsAdded (items : list (gmap string pyval)) (answer : result unit).

(** What an upload puts on the screen: [st.status(label)],
    [status.update(label=..., state=...)] (the state is optional) and the
    [st.image(data_uri)] of the preview. The chat bubbles these widgets
    sit in, and what Streamlit does on its own when a [with st.status]
    block is left, are not recorded. *)
Inductive UploadOp :=
| OpenStatus (label : string)
| UpdateStatus (label : string) (state : option string)
| PreviewImage (image : string).

(** The state the uploads work on. *)
Record Uploading (W S : Type) := {
  up_app : App W;
  up_session : S;
  up_log : list upload_exchange;
  up_shown : list UploadOp;
}.
Arguments up_app {W S} _.
Arguments up_session {W S} _.
Arguments up_log {W S} _.
Arguments up_shown {W S} _.

(** The item an uploaded image is stored as. *)
Definition image_item (data_uri : string) : gmap string pyval :=
  {[ "role" := PStr "user";
     "content" := PList [PDict {[ "type" := PStr "input_image";
                                  "detail" := PStr "auto";
                                  "image_url" := PStr data_uri ]}] ]}.

Section uploads.
Context {W S : Type} `{VectorStores W} `{Files W} `{Session S} `{PyEncode} `{PyRuntime}.

Definition set_app (app : App W) (st : Uploading W S) : Uploading W S :=
  {| up_app := app; up_session := up_session st;
     up_log := up_log st; up_shown := up_shown st |}.

Definition set_session (s : S) (st : Uploading W S) : Uploading W S :=
  {| up_app := up_app st; up_session := s;
     up_log := up_log st; up_shown := up_shown st |}.

(** The backend moves on with a request of an upload. *)
Definition set_backend (w : W) (st : Uploading W S) : Uploading W S :=
  set_app {| session_state := session_state (up_app st);
             backend := w;
             api_log := api_log (up_app st) |} st.

Definition logged (x : upload_exchange) (st : Uploading W S) : Uploading W S :=
  {| up_app := up_app st; up_session := up_session st;
     up_log := up_log st ++ [x]; up_shown := up_shown st |}.

Definition show (op : UploadOp) (st : Uploading W S) : Uploading W S :=
  {| up_app := up_app st; up_session := up_session st;
     up_log := up_log st; up_shown := up_shown st ++ [op] |}.

(** [f"data:{file.type};base64,{base64_data}"]. *)
Definition data_uri (file : UploadedFile) : string :=
  "data:" +:+ file_type file +:+ ";base64," +:+ b64encode (file_value file).

(** The branch [file.type.startswith("text/")]: the vector store is
    ensured, the file is stored and then tied to the store. *)
Definition upload_text (file : UploadedFile) (st : Uploading W S)
  : Uploading W S * result unit :=
  let st1 := show (OpenStatus "⏳ Uploading file...") st in
  match ensure_vector_store (up_app st1) with
  | (app1, Raise e) => (set_app app1 st1, Raise e)
  | (app1, Ok vs_id) =>
      let '(w2, uploaded_file) :=
        files_create (backend app1) (file_name file) (file_value file) in
      let st2 := logged (FileCreated (file_name file) (file_value file) uploaded_file)
                   (set_backend w2 (set_app app1 st1)) in
      match uploaded_file with
      | Raise e => (st2, Raise e)
      | Ok file_id =>
          let st3 := show (UpdateStatus "⏳ Attaching file..." None) st2 in
          let '(w3, r) :=
            vector_stores_files_create (backend (up_app st3)) vs_id file_id in
          let st4 := logged (FileAttached vs_id file_id r) (set_backend w3 st3) in
          match r with
          | Raise e => (st4, Raise e)
          | Ok _ =>
              (show (UpdateStatus "✅ File uploaded" (Some "complete")) st4, Ok ())
          end
      end
  end.

(** The branch [file.type.startswith("image/")]: the image is added to
    the history as a data URI and shown in a bubble of the user. *)
Definition upload_image (file : UploadedFile) (st : Uploading W S)
  : Uploading W S * result unit :=
  let st1 := show (OpenStatus "⏳ Uploading image...") st in
  let items := [image_item (data_uri file)] in
  let '(s, r) := add_items (up_session st1) items in
  let st2 := logged (ItemsAdded items r) (set_session s st1) in
  match r with
  | Raise e => (st2, Raise e)
  | Ok _ =>
      (show (PreviewImage (data_uri file))
         (show (UpdateStatus "✅ Image uploaded" (Some "complete")) st2), Ok ())
  end.

(** The body of [for file in prompt.files]. *)
Definition upload_file (file : UploadedFile) (st : Uploading W S)
  : Uploading W S * result unit :=
  if String.prefix "text/" (file_type file) then upload_text file st
  else if String.prefix "image/" (file_type file) then upload_image file st
  else (st, Ok ()).

(** The loop over the files; an exception ends it. *)
Fixpoint upload_files (files : list UploadedFile) (st : Uploading W S)
  : Uploading W S * result unit :=
  match files with
  | [] => (st, Ok ())
  | file :: rest =>
      match upload_file file st with
      | (st', Raise e) => (st', Raise e)
      | (st', Ok _) => upload_files rest st'
      end
  end.

(** What [if prompt:] does with a submitted prompt: the uploads, then,
    when there is a text, its echo and the turn. *)
Record Submitted := {
  uploading : Uploading W S;
  echo : list RenderOp;
  submitted_turn : option TurnResult;
  submit_outcome : result unit;
}.

Definition submit (agent : Agent) (prompt : Prompt) (events : list StreamEvent)
    (st : Uploading W S) : Submitted :=
  match upload_files (prompt_files prompt) st with
  | (st1, Raise e) =>
      {| uploading := st1; echo := []; submitted_turn := None;
         submit_outcome := Raise e |}
  | (st1, Ok _) =>
      match prompt_text prompt with
      | EmptyString =>
          {| uploading := st1; echo := []; submitted_turn := None;
             submit_outcome := Ok () |}
      | String c text =>
          let '(app2, t) := run_agent agent (String c text) events (up_app st1) in
          {| uploading := set_app app2 st1;
             echo := [ShowBubble (PStr "human") [Write (String c text)]];
             submitted_turn := Some t;
             submit_outcome := outcome t |}
      end
  end.
End uploads.
Arguments Submitted : clear implicits.

(** ** Simulated services for the uploads *)

(** The simulated backend stores a file under an id made of its name and
    ties a file to a store that exists. *)
#[global] Instance remote_files : Files Remote :=
  {| files_create := λ r name value,
       let r' := {| stores := stores r; outages := tail (outages r);
                    issued := issued r |} in
       if default false (head (outages r)) then (r', Raise APIConnectionError)
       else (r', Ok ("file-" +:+ name));
     vector_stores_files_create := λ r vector_store_id file_id,
       let r' := {| stores := stores r; outages := tail (outages r);
                    issued := issued r |} in
       if default false (head (outages r)) then (r', Raise APIConnectionError)
       else if bool_decide (vector_store_id ∈ stores r) then (r', Ok ())
       else (r', Raise NotFoundError) |}.

(** A conversation store that keeps the items in a list. *)
#[global] Instance list_session : Session (list (gmap string pyval)) :=
  {| add_items := λ s items, (s ++ items, Ok ()) |}.

(** The character of a value of the base64 alphabet. *)
Definition b64_char (n : N) : ascii :=
  if (n <? 26)%N then ascii_of_N (n + 65)
  else if (n <? 52)%N then ascii_of_N (n + 71)
  else if (n <? 62)%N then ascii_of_N (n - 4)
  else if (n =? 62)%N then "+"%char
  else "/"%char.

(** The standard encoding with padding, three bytes at a time. *)
Fixpoint b64encode_bytes (value : bytes) : string :=
  match value with
  | [] => EmptyString
  | [a] =>
      let x := Byte.to_N a in
      String (b64_char (N.shiftr x 2))
        (String (b64_char (N.shiftl (N.land x 3) 4)) "==")
  | [a; b] =>
      let x := Byte.to_N a in
      let y := Byte.to_N b in
      String (b64_char (N.shiftr x 2))
        (String (b64_char (N.lor (N.shiftl (N.land x 3) 4) (N.shiftr y 4)))
           (String (b64_char (N.shiftl (N.land y 15) 2)) "="))
  | a :: b :: c :: rest =>
      let x := Byte.to_N a in
      let y := Byte.to_N b in
      let z := Byte.to_N c in
      String (b64_char (N.shiftr x 2))
        (String (b64_char (N.lor (N.shiftl (N.land x 3) 4) (N.shiftr y 4)))
           (String (b64_char (N.lor (N.shiftl (N.land y 15) 2) (N.shiftr z 6)))
              (String (b64_char (N.land z 63)) (b64encode_bytes rest))))
  end.

#[global] Instance example_encoder : PyEncode := {| b64encode := b64encode_bytes |}.

(** A session in which nothing was uploaded yet. *)
Definition new_upload (app : App Remote) : Uploading Remote (list (gmap string pyval)) :=
  {| up_app := app; up_session := []; up_log := []; up_shown := [] |}.

(** ** Vocabulary of the further properties *)

Definition is_create (x : api_exchange) : bool :=
  match x with
  | Created _ _ => true
  | _ => false
  end.

(** The two states the status table uses. *)
Definition valid_state (st : Status) : Prop :=
  state st = "running" ∨ state st = "complete".

(** The status updates, and the codes, handed to the sink, in order. *)
Definition status_updates (shown : list RenderOp) : list Status :=
  omap (λ op, match op with
              | SetStatus l s => Some {| label := l; state := s |}
              | _ => None
              end) shown.

Definition code_updates (shown : list RenderOp) : list string :=
  omap (λ op, match op with SetCode c => Some c | _ => None end) shown.

(** The status widget stays in one of the two states. *)
Definition keeps_valid_status : step_rel := λ before shown after,
  (valid_state (status_container before) → valid_state (status_container after)) ∧
  Forall valid_state (status_updates shown).

(** A sink follows a buffer: the last value it received, if it received
    one, is the view of the buffer, and else the buffer is as before. *)
Definition tracks {A B} (updates : list RenderOp → list A)
    (buffer : TurnAccumulator → B) (view : B → option A) : step_rel :=
  λ before shown after,
    match last (updates shown) with
    | Some x => view (buffer after) = Some x
    | None => buffer after = buffer before
    end.

(** The four sinks follow the four buffers. *)
Definition shows_buffers : step_rel := λ before shown after,
  tracks text_updates response (λ t, Some (escape_dollar t)) before shown after ∧
  tracks code_updates code_response Some before shown after ∧
  tracks image_updates image_placeholder id before shown after ∧
  tracks status_updates status_container Some before shown after.

Definition is_raw (event : StreamEvent) : bool :=
  bool_decide (event_type event = "raw_response_event").

(** The delta an event adds to the buffer of the tag [tag]; the empty
    string for every other event. *)
Definition delta_of (tag : string) (event : StreamEvent) : string :=
  if is_raw event then
    match data event with
    | Some d => if is_type d tag then default EmptyString (delta d) else EmptyString
    | None => EmptyString
    end
  else EmptyString.

Definition deltas_of (tag : string) (events : list StreamEvent) : string :=
  foldr (λ event rest, delta_of tag event +:+ rest) EmptyString events.

Definition is_bubble (op : RenderOp) : bool :=
  match op with
  | ShowBubble _ _ => true
  | _ => false
  end.

(** The way back from an escaped text: a backslash that stands right
    before a dollar sign is dropped. *)
Fixpoint unescape_dollar (s : string) : string :=
  match s with
  | EmptyString => EmptyString
  | String c s' =>
      match s' with
      | String c' s'' =>
          if bool_decide (c = "\"%char) && bool_decide (c' = "$"%char)
          then String "$" (unescape_dollar s'')
          else String c (unescape_dollar s')
      | EmptyString => String c EmptyString
      end
  end.

(** * Properties *)

(** ** The model at work *)

Example replace_left_to_right : replace "ab" "X" "abababa--ab" = "XXXa--X".
Proof. reflexivity. Qed.

Example escape_dollar_text :
  escape_dollar "cost $5 and \$6 $$" = "cost \$5 and \\$6 \$\$".
Proof. reflexivity. Qed.

Example b64decode_padded : b64decode "aGk=" = Ok [Byte.x68; Byte.x69].
Proof. reflexivity. Qed.

Example b64decode_incomplete : b64decode "aGk" = Raise BinasciiError.
Proof. reflexivity. Qed.

(** A call of the code interpreter: the code sink receives the whole code
    so far at each delta. *)
Example stream_events_code :
  stream_events
    [status_event "response.code_interpreter_call.in_progress";
     code_delta "print("; code_delta "1)";
     status_event "response.code_interpreter_call_code.done"] fresh_turn
  = ({| response := EmptyString;
        code_response := "print(1)";
        image_placeholder := None;
        status_container := {| label := "🤖 Ran code."; state := "complete" |} |},
     [SetStatus "🤖 Running code..." "complete";
      SetCode "print("; SetCode "print(1)";
      SetStatus "🤖 Ran code." "complete"],
     Ok ()).
Proof. reflexivity. Qed.

(** An image that cannot be decoded ends the turn with the exception;
    what was shown before it stays. *)
Example stream_events_bad_image :
  stream_events [text_delta "Here: "; partial_image "aGk"; text_delta "done"]
    fresh_turn
  = ({| response := "Here: ";
        code_response := EmptyString;
        image_placeholder := None;
        status_container := status_container fresh_turn |},
     [SetText "Here: "], Raise BinasciiError).
Proof. reflexivity. Qed.

(** A stored conversation: a user text, an uploaded image, two tool
    calls and the answer. The text of the user is shown as it is. *)
Example paint_history_conversation :
  paint_history
    [ {[ "role" := PStr "user"; "content" := PStr "what costs $5?" ]};
      {[ "role" := PStr "user";
         "content" := PList [PDict {[ "type" := PStr "input_image";
                                      "detail" := PStr "auto";
                                      "image_url" := PStr "data:image/png;base64,aGk=" ]}] ]};
      {[ "type" := PStr "web_search_call" ]};
      {[ "type" := PStr "mcp_call"; "server_label" := PStr "Context7";
         "name" := PStr "get-docs"; "arguments" := PStr "{}" ]};
      {[ "role" := PStr "assistant"; "type" := PStr "message";
         "content" := PList [PDict {[ "type" := PStr "output_text";
                                      "text" := PStr "Lunch costs $5." ]}] ]} ]
  = ([ShowBubble (PStr "user") [Write "what costs $5?"];
      ShowBubble (PStr "user") [Image (PStr "data:image/png;base64,aGk=")];
      ShowBubble (PStr "ai") [Write "🔍 Searched the web..."];
      ShowBubble (PStr "ai") [Write "Called Context7's get-docs with args {}"];
      ShowBubble (PStr "assistant") [Write "Lunch costs \$5."]],
     Ok ()).
Proof. reflexivity. Qed.

(** A record of a code interpreter call without its code: the bubble is
    opened, the lookup raises, and the rest of the history is not shown. *)
Example paint_history_missing_code :
  paint_history
    [ {[ "type" := PStr "file_search_call" ]};
      {[ "type" := PStr "code_interpreter_call" ]};
      {[ "type" := PStr "web_search_call" ]} ]
  = ([ShowBubble (PStr "ai") [Write "🗂️ Searched your files..."];
      ShowBubble (PStr "ai") []],
     Raise KeyError).
Proof. reflexivity. Qed.

(** A backend that cannot be reached at all: the probe is passed over and
    the exception of [create] reaches the caller. *)
Example ensure_vector_store_unreachable :
  (ensure_vector_store
     (new_session {| stores := [DEFAULT_VECTOR_STORE_ID];
                     outages := [true; true]; issued := 0 |})).2
  = Raise APIConnectionError.
Proof. reflexivity. Qed.

(** ** Escaping *)

Lemma escape_dollar_cons c s :
  escape_dollar (String c s)
  = if bool_decide (c = "$"%char)
    then String "\" (String "$" (escape_dollar s))
    else String c (escape_dollar s).
Proof.
  unfold escape_dollar, replace. cbn [replace_from String.prefix].
  destruct (Ascii.ascii_dec "$" c) as [<-|Hne].
  - rewrite bool_decide_eq_true_2 by done. by destruct s.
  - rewrite bool_decide_eq_false_2 by congruence. reflexivity.
Qed.

Lemma escape_dollar_backslash_each_dollar s :
  escape_dollar s = backslash_each_dollar s.
Proof.
  induction s as [|c s IH]; [reflexivity|].
  rewrite escape_dollar_cons. cbn [backslash_each_dollar]. by rewrite IH.
Qed.

Lemma escape_dollar_escaped_from b s :
  dollars_escaped_from b (escape_dollar s) = true.
Proof.
  revert b. induction s as [|c s IH]; intros b; [reflexivity|].
  rewrite escape_dollar_cons. case_bool_decide as Hc.
  - cbn. apply IH.
  - cbn [dollars_escaped_from]. rewrite bool_decide_eq_false_2 by done. apply IH.
Qed.

Lemma escape_dollar_app s t :
  escape_dollar (s +:+ t) = escape_dollar s +:+ escape_dollar t.
Proof.
  induction s as [|c s IH]; [reflexivity|].
  change (String c s +:+ t) with (String c (s +:+ t)).
  rewrite !escape_dollar_cons, IH.
  by case_bool_decide.
Qed.

(** ** The reconciler *)

Section reconciler_facts.
Context {W : Type} `{VectorStores W}.
Implicit Types (app : App W) (id : string).

Lemma truthy_nonempty id : id ≠ EmptyString → truthy (Some id) = Some id.
Proof. by destruct id. Qed.

Lemma truthy_Some cand id : truthy cand = Some id → cand = Some id ∧ id ≠ EmptyString.
Proof. destruct cand as [[|c s]|]; naive_solver. Qed.

(** The loop sends one probe after the other: it ends at the first one
    that is answered, and that id is remembered; all the probes before
    it raised. When it runs to its end every probe raised and the
    session is as it was. *)
Lemma probe_candidates_log candidates app :
  ∃ probes,
    Forall (λ x, failed_probe x = true) probes ∧
    match (probe_candidates candidates app).2 with
    | Some id =>
        Some id ∈ candidates ∧
        VECTOR_STORE_ID (session_state (probe_candidates candidates app).1) = Some id ∧
        api_log (probe_candidates candidates app).1
        = api_log app ++ probes ++ [Retrieved id (Ok ())]
    | None =>
        session_state (probe_candidates candidates app).1 = session_state app ∧
        api_log (probe_candidates candidates app).1 = api_log app ++ probes
    end.
Proof.
  revert app. induction candidates as [|cand rest IH]; intros app.
  - exists []. cbn. by rewrite app_nil_r.
  - cbn [probe_candidates]. destruct (truthy cand) as [id|] eqn:Hcand.
    + apply truthy_Some in Hcand as [-> _].
      destruct (vector_stores_retrieve (backend app) id) as [w [[]|e]] eqn:Hr.
      * exists []. cbn. split_and!; [done|left|done|done].
      * destruct (IH (sent (Retrieved id (Raise e)) w app)) as (probes & Hall & IH').
        exists (Retrieved id (Raise e) :: probes). split; [by constructor|].
        destruct (probe_candidates rest _).2 as [id'|].
        -- destruct IH' as (Hin & Hid & Hlog). split_and!; [by right|done|].
           rewrite Hlog. cbn. by rewrite <-app_assoc.
        -- destruct IH' as [Hs Hlog]. split; [done|].
           rewrite Hlog. cbn. by rewrite <-app_assoc.
    + destruct (IH app) as (probes & Hall & IH'). exists probes. split; [done|].
      destruct (probe_candidates rest app).2 as [id'|]; [|done].
      destruct IH' as (Hin & Hid & Hlog). split_and!; [by right|done|done].
Qed.

Lemma ensure_vector_store_remembered_live app id w :
  VECTOR_STORE_ID (session_state app) = Some id →
  id ≠ EmptyString →
  vector_stores_retrieve (backend app) id = (w, Ok ()) →
  ensure_vector_store app
  = (remember id (sent (Retrieved id (Ok ())) w app), Ok id).
Proof.
  intros Hid Hne Hr. unfold ensure_vector_store. cbn [probe_candidates].
  by rewrite Hid, truthy_nonempty, Hr.
Qed.

Lemma ensure_vector_store_fallback_live app dead e w1 w2 :
  VECTOR_STORE_ID (session_state app) = Some dead →
  dead ≠ EmptyString →
  vector_stores_retrieve (backend app) dead = (w1, Raise e) →
  vector_stores_retrieve w1 DEFAULT_VECTOR_STORE_ID = (w2, Ok ()) →
  ensure_vector_store app
  = (remember DEFAULT_VECTOR_STORE_ID
       (sent (Retrieved DEFAULT_VECTOR_STORE_ID (Ok ())) w2
          (sent (Retrieved dead (Raise e)) w1 app)),
     Ok DEFAULT_VECTOR_STORE_ID).
Proof.
  intros Hid Hne Hr1 Hr2. unfold ensure_vector_store. cbn [probe_candidates].
  rewrite Hid, truthy_nonempty, Hr1 by done.
  cbn [truthy DEFAULT_VECTOR_STORE_ID sent backend]. fold DEFAULT_VECTOR_STORE_ID.
  by rewrite Hr2.
Qed.

Lemma ensure_vector_store_creates app e w1 w2 r :
  VECTOR_STORE_ID (session_state app) = None →
  vector_stores_retrieve (backend app) DEFAULT_VECTOR_STORE_ID = (w1, Raise e) →
  vector_stores_create w1 VECTOR_STORE_NAME = (w2, r) →
  ensure_vector_store app
  = let app' := sent (Created VECTOR_STORE_NAME r) w2
                  (sent (Retrieved DEFAULT_VECTOR_STORE_ID (Raise e)) w1 app) in
    match r with
    | Ok id => (remember id app', Ok id)
    | Raise e' => (app', Raise e')
    end.
Proof.
  intros Hid Hr Hc. unfold ensure_vector_store. cbn [probe_candidates].
  rewrite Hid. cbn [truthy DEFAULT_VECTOR_STORE_ID]. fold DEFAULT_VECTOR_STORE_ID.
  rewrite Hr. cbn [sent backend]. by rewrite Hc.
Qed.
End reconciler_facts.

(** C2, as the code has it. Whatever the backend answers, a call of
    [ensure_vector_store] sends probes that all raise, and then ends in
    one of three ways: a probe of the remembered or of the fallback id is
    answered and that id is returned and remembered; or [create] is sent
    and answers, and the id it issued is
    returned and remembered; or [create] is sent and raises, and then
    that exception reaches the caller and the session state is as it was.
    So an exception of [create] (an unreachable backend included) is
    propagated and no id is made up, while an exception of a probe is
    never propagated: another exchange always follows it. *)
Theorem ensure_vector_store_outcomes {W : Type} `{VectorStores W} (app : App W) :
  ∃ probes,
    Forall (λ x, failed_probe x = true) probes ∧
    match (ensure_vector_store app).2 with
    | Ok id =>
        VECTOR_STORE_ID (session_state (ensure_vector_store app).1) = Some id ∧
        (Some id ∈ [VECTOR_STORE_ID (session_state app); Some DEFAULT_VECTOR_STORE_ID] ∧
         api_log (ensure_vector_store app).1
         = api_log app ++ probes ++ [Retrieved id (Ok ())] ∨
         api_log (ensure_vector_store app).1
         = api_log app ++ probes ++ [Created VECTOR_STORE_NAME (Ok id)])
    | Raise e =>
        session_state (ensure_vector_store app).1 = session_state app ∧
        api_log (ensure_vector_store app).1
        = api_log app ++ probes ++ [Created VECTOR_STORE_NAME (Raise e)]
    end.
Proof.
  unfold ensure_vector_store.
  set (candidates := [VECTOR_STORE_ID (session_state app); Some DEFAULT_VECTOR_STORE_ID]).
  destruct (probe_candidates_log candidates app) as (probes & Hall & Hloop).
  exists probes. split; [done|].
  destruct (probe_candidates candidates app) as [app' [cand|]]; cbn in *.
  - destruct Hloop as (Hin & Hid & Hlog). auto.
  - destruct Hloop as [Hs Hlog].
    destruct (vector_stores_create (backend app') VECTOR_STORE_NAME) as [w [id|e]];
      cbn; rewrite Hlog, <-?app_assoc; auto.
Qed.

(** C2, the counterexample: the backend cannot be reached when the
    fallback id is probed and can be reached again right after. The call
    does not raise: it creates a store and returns its fresh id. *)
Lemma ensure_vector_store_hides_probe_outage :
  let app := new_session {| stores := [DEFAULT_VECTOR_STORE_ID];
                            outages := [true]; issued := 0 |} in
  (vector_stores_retrieve (backend app) DEFAULT_VECTOR_STORE_ID).2
  = Raise APIConnectionError ∧
  (ensure_vector_store app).2 = Ok "vs_new_0" ∧
  api_log (ensure_vector_store app).1
  = [Retrieved DEFAULT_VECTOR_STORE_ID (Raise APIConnectionError);
     Created VECTOR_STORE_NAME (Ok "vs_new_0")] ∧
  stores (backend (ensure_vector_store app).1)
  = ["vs_new_0"; DEFAULT_VECTOR_STORE_ID] ∧
  ¬ ∃ e, (ensure_vector_store app).2 = Raise e.
Proof.
  vm_compute. split_and!; [reflexivity..|]. intros [e He]. discriminate He.
Qed.

(** C3. The remembered id is probed first and returned when it resolves.
    When it does not and the fallback id does, the fallback id is
    returned and becomes the remembered id: the two probes were sent in
    that order, and a later call (the fallback id still resolving) sends
    a single probe, of the fallback id, and returns it. *)
Theorem ensure_vector_store_promotes_live_id {W : Type} `{VectorStores W} :
  (∀ (app : App W) id w,
     VECTOR_STORE_ID (session_state app) = Some id →
     id ≠ EmptyString →
     vector_stores_retrieve (backend app) id = (w, Ok ()) →
     (ensure_vector_store app).2 = Ok id ∧
     VECTOR_STORE_ID (session_state (ensure_vector_store app).1) = Some id ∧
     api_log (ensure_vector_store app).1 = api_log app ++ [Retrieved id (Ok ())]) ∧
  (∀ (app : App W) dead e w1 w2 w3,
     VECTOR_STORE_ID (session_state app) = Some dead →
     dead ≠ EmptyString →
     vector_stores_retrieve (backend app) dead = (w1, Raise e) →
     vector_stores_retrieve w1 DEFAULT_VECTOR_STORE_ID = (w2, Ok ()) →
     vector_stores_retrieve w2 DEFAULT_VECTOR_STORE_ID = (w3, Ok ()) →
     let app1 := (ensure_vector_store app).1 in
     let app2 := (ensure_vector_store app1).1 in
     (ensure_vector_store app).2 = Ok DEFAULT_VECTOR_STORE_ID ∧
     VECTOR_STORE_ID (session_state app1) = Some DEFAULT_VECTOR_STORE_ID ∧
     api_log app1
     = api_log app ++ [Retrieved dead (Raise e);
                       Retrieved DEFAULT_VECTOR_STORE_ID (Ok ())] ∧
     (ensure_vector_store app1).2 = Ok DEFAULT_VECTOR_STORE_ID ∧
     VECTOR_STORE_ID (session_state app2) = Some DEFAULT_VECTOR_STORE_ID ∧
     api_log app2 = api_log app1 ++ [Retrieved DEFAULT_VECTOR_STORE_ID (Ok ())]).
Proof.
  split.
  - intros app id w Hid Hne Hr.
    by rewrite (ensure_vector_store_remembered_live app id w).
  - intros app dead e w1 w2 w3 Hid Hne Hr1 Hr2 Hr3 app1 app2. subst app2 app1.
    rewrite (ensure_vector_store_fallback_live app dead e w1 w2) by done.
    cbn [fst snd].
    rewrite (ensure_vector_store_remembered_live _ DEFAULT_VECTOR_STORE_ID w3)
      by done.
    cbn. by rewrite <-app_assoc.
Qed.

Lemma ensure_vector_store_promotes_live_id_witness :
  let app := session_with "vs_dead" {| stores := [DEFAULT_VECTOR_STORE_ID];
                                       outages := []; issued := 0 |} in
  let app1 := (ensure_vector_store app).1 in
  let app2 := (ensure_vector_store app1).1 in
  (ensure_vector_store app).2 = Ok DEFAULT_VECTOR_STORE_ID ∧
  VECTOR_STORE_ID (session_state app1) = Some DEFAULT_VECTOR_STORE_ID ∧
  api_log app1
  = api_log app ++ [Retrieved "vs_dead" (Raise NotFoundError);
                    Retrieved DEFAULT_VECTOR_STORE_ID (Ok ())] ∧
  (ensure_vector_store app1).2 = Ok DEFAULT_VECTOR_STORE_ID ∧
  VECTOR_STORE_ID (session_state app2) = Some DEFAULT_VECTOR_STORE_ID ∧
  api_log app2 = api_log app1 ++ [Retrieved DEFAULT_VECTOR_STORE_ID (Ok ())].
Proof.
  intros app.
  set (w := {| stores := [DEFAULT_VECTOR_STORE_ID]; outages := []; issued := 0 |}).
  apply (proj2 ensure_vector_store_promotes_live_id app "vs_dead" NotFoundError w w w);
    first [reflexivity | discriminate].
Defined.

(** C4. With nothing remembered and the probe of the fallback id raising,
    the call creates one store, returns the id the backend issued and
    remembers it. A second call (that store resolving) returns the same
    id after a single probe: over the two calls the backend was asked to
    create a store once. *)
Theorem ensure_vector_store_creates_once {W : Type} `{VectorStores W}
    (app : App W) e w1 w2 w3 id :
  VECTOR_STORE_ID (session_state app) = None →
  vector_stores_retrieve (backend app) DEFAULT_VECTOR_STORE_ID = (w1, Raise e) →
  vector_stores_create w1 VECTOR_STORE_NAME = (w2, Ok id) →
  id ≠ EmptyString →
  vector_stores_retrieve w2 id = (w3, Ok ()) →
  let app1 := (ensure_vector_store app).1 in
  let app2 := (ensure_vector_store app1).1 in
  (ensure_vector_store app).2 = Ok id ∧
  VECTOR_STORE_ID (session_state app1) = Some id ∧
  api_log app1
  = api_log app ++ [Retrieved DEFAULT_VECTOR_STORE_ID (Raise e);
                    Created VECTOR_STORE_NAME (Ok id)] ∧
  (ensure_vector_store app1).2 = Ok id ∧
  VECTOR_STORE_ID (session_state app2) = Some id ∧
  api_log app2 = api_log app1 ++ [Retrieved id (Ok ())] ∧
  created_ids (api_log app2) = created_ids (api_log app) ++ [id].
Proof.
  intros Hid Hr1 Hc Hne Hr2 app1 app2. subst app2 app1.
  rewrite (ensure_vector_store_creates app e w1 w2 (Ok id)) by done.
  cbn [fst snd].
  rewrite (ensure_vector_store_remembered_live _ id w3) by done.
  cbn. split_and!; try done.
  - by rewrite <-app_assoc.
  - unfold created_ids. rewrite <-!app_assoc, !omap_app. done.
Qed.

Lemma ensure_vector_store_creates_once_witness :
  let app := new_session {| stores := []; outages := []; issued := 0 |} in
  let app1 := (ensure_vector_store app).1 in
  let app2 := (ensure_vector_store app1).1 in
  (ensure_vector_store app).2 = Ok "vs_new_0" ∧
  VECTOR_STORE_ID (session_state app1) = Some "vs_new_0" ∧
  api_log app1
  = api_log app ++ [Retrieved DEFAULT_VECTOR_STORE_ID (Raise NotFoundError);
                    Created VECTOR_STORE_NAME (Ok "vs_new_0")] ∧
  (ensure_vector_store app1).2 = Ok "vs_new_0" ∧
  VECTOR_STORE_ID (session_state app2) = Some "vs_new_0" ∧
  api_log app2 = api_log app1 ++ [Retrieved "vs_new_0" (Ok ())] ∧
  created_ids (api_log app2) = created_ids (api_log app) ++ ["vs_new_0"].
Proof.
  intros app.
  set (w0 := {| stores := []; outages := []; issued := 0 |}).
  set (w1 := {| stores := ["vs_new_0"]; outages := []; issued := 1 |}).
  apply (ensure_vector_store_creates_once app NotFoundError w0 w1 w1 "vs_new_0");
    first [reflexivity | discriminate].
Defined.

(** ** The streamed turn *)

Lemma append_cons c s t : String c s +:+ t = String c (s +:+ t).
Proof. reflexivity. Qed.

Lemma append_empty_r s : s +:+ EmptyString = s.
Proof. induction s as [|c s IH]; [done|]. by rewrite append_cons, IH. Qed.

Lemma append_assoc s t u : (s +:+ t) +:+ u = s +:+ (t +:+ u).
Proof. induction s as [|c s IH]; [done|]. by rewrite !append_cons, IH. Qed.

Lemma grows_refl acc : grows acc acc.
Proof.
  unfold grows. split_and!; [exists EmptyString; by rewrite append_empty_r..|done].
Qed.

Lemma grows_trans a b c : grows a b → grows b c → grows a c.
Proof.
  intros ([d1 H1] & [e1 H2] & H3) ([d2 H4] & [e2 H5] & H6). split_and!.
  - exists (d1 +:+ d2). by rewrite H4, H1, append_assoc.
  - exists (e1 +:+ e2). by rewrite H5, H2, append_assoc.
  - auto.
Qed.

Lemma status_messages_unknown_payload_tags :
  Forall (λ tag, status_messages !! tag = None) payload_tags.
Proof. repeat constructor. Qed.

Section turn_facts.
Context `{PyRuntime}.
Implicit Types (acc : TurnAccumulator) (event : StreamEvent) (R : step_rel).

Lemma turn_bind_assoc {A B C} (m : Turn A) (k : A → Turn B) (k' : B → Turn C) acc :
  turn_bind (turn_bind m k) k' acc = turn_bind m (λ a, turn_bind (k a) k') acc.
Proof.
  unfold turn_bind. destruct (m acc) as [[acc1 shown1] [a|e]]; [|done].
  destruct (k a acc1) as [[acc2 shown2] [b|e]]; [|done].
  destruct (k' b acc2) as [[acc3 shown3] r]. by rewrite app_assoc.
Qed.

Lemma turn_bind_ext {A B} (m : Turn A) (k k' : A → Turn B) acc :
  (∀ a acc', k a acc' = k' a acc') → turn_bind m k acc = turn_bind m k' acc.
Proof.
  intros Hk. unfold turn_bind. destruct (m acc) as [[acc1 shown1] [a|e]]; [|done].
  by rewrite Hk.
Qed.

Lemma stream_events_app pre post acc :
  stream_events (pre ++ post) acc
  = turn_bind (stream_events pre) (λ _, stream_events post) acc.
Proof.
  revert acc. induction pre as [|event pre IH]; intros acc.
  - cbn [app stream_events]. unfold turn_bind, turn_ret.
    by destruct (stream_events post acc) as [[acc' shown] r].
  - cbn [stream_events app]. rewrite turn_bind_assoc.
    apply turn_bind_ext. intros _ acc'. apply IH.
Qed.

(** *** Relations kept by every piece of the loop *)

Lemma respects_ret {A} R (a : A) : compositional R → respects R (turn_ret a).
Proof. intros HR acc. apply (comp_refl R HR). Qed.

Lemma respects_getattr {A} R (field : option A) :
  compositional R → respects R (getattr field).
Proof. intros HR acc. apply (comp_refl R HR). Qed.

Lemma respects_lift {A} R (r : result A) : compositional R → respects R (lift r).
Proof. intros HR acc. apply (comp_refl R HR). Qed.

Lemma respects_bind {A B} R (m : Turn A) (k : A → Turn B) :
  compositional R → respects R m → (∀ a, respects R (k a)) →
  respects R (turn_bind m k).
Proof.
  intros HR Hm Hk acc. unfold turn_bind.
  specialize (Hm acc). destruct (m acc) as [[acc1 shown1] [a|e]]; [|done].
  specialize (Hk a acc1). destruct (k a acc1) as [[acc2 shown2] r].
  by eapply (comp_trans R HR).
Qed.

Lemma respects_when R (b : bool) (body : Turn unit) :
  compositional R → (b = true → respects R body) → respects R (when b body).
Proof. intros HR Hbody. destruct b; [by apply Hbody|]. by apply respects_ret. Qed.

Lemma respects_bind_getattr {A B} R (field : option A) (k : A → Turn B) :
  compositional R → (∀ a, field = Some a → respects R (k a)) →
  respects R (turn_bind (getattr field) k).
Proof.
  intros HR Hk. destruct field as [a|]; intros acc.
  - specialize (Hk a eq_refl acc). unfold turn_bind, getattr.
    by destruct (k a acc) as [[acc' shown] r].
  - apply (comp_refl R HR).
Qed.

(** One round of the loop stays within a relation that its four updates
    stay within; the status update and the image update need to do so
    only for the event at hand. *)
Lemma respects_handle_event R event :
  compositional R →
  (∀ d, event_type event = "raw_response_event" → data event = Some d →
        respects R (on_status (data_type d))) →
  (∀ text, respects R (on_text_delta text)) →
  (∀ text, respects R (on_code_delta text)) →
  (∀ image, is_partial_image event = true → respects R (on_partial_image image)) →
  respects R (handle_event event).
Proof.
  intros HR Hstatus Htext Hcode Himage. unfold handle_event.
  apply respects_when; [done|]. intros Hraw%bool_decide_eq_true.
  apply respects_bind_getattr; [done|]. intros d Hd.
  apply respects_bind; [done|by apply Hstatus|]. intros _.
  apply respects_bind; [done| |].
  { apply respects_when; [done|]. intros _.
    apply respects_bind_getattr; [done|]. intros text _. apply Htext. }
  intros _. destruct (is_type d "response.code_interpreter_call_code.delta").
  - apply respects_bind_getattr; [done|]. intros text _. apply Hcode.
  - apply respects_when; [done|]. intros Himg.
    apply respects_bind_getattr; [done|]. intros payload _.
    apply respects_bind; [done|by apply respects_lift|]. intros image.
    apply Himage. unfold is_partial_image. rewrite Hd. cbn [from_option].
    rewrite Himg. by rewrite bool_decide_eq_true_2.
Qed.

Lemma respects_stream_events R events :
  compositional R →
  (∀ event, respects R (handle_event event)) →
  respects R (stream_events events).
Proof.
  intros HR Hstep. induction events as [|event events IH]; cbn [stream_events].
  - by apply respects_ret.
  - by apply respects_bind.
Qed.

(** *** The buffers only grow *)

Lemma grows_compositional : compositional (λ before _ after, grows before after).
Proof. split; [apply grows_refl|]. intros a b c _ _. apply grows_trans. Qed.

Lemma handle_event_grows event acc : grows acc (handle_event event acc).1.1.
Proof.
  apply (respects_handle_event (λ before _ after, grows before after));
    [apply grows_compositional|..].
  - intros d _ _ a. unfold on_status. destruct (update_status _ _).
    unfold grows. split_and!; cbn; eauto using append_empty_r, eq_sym.
  - intros text a. unfold grows. split_and!; cbn; eauto using append_empty_r, eq_sym.
  - intros text a. unfold grows. split_and!; cbn; eauto using append_empty_r, eq_sym.
  - intros image _ a. unfold grows. split_and!; cbn; eauto using append_empty_r, eq_sym.
Qed.

Lemma stream_events_grows events acc : grows acc (stream_events events acc).1.1.
Proof.
  apply (respects_stream_events (λ before _ after, grows before after));
    [apply grows_compositional|]. intros event a. apply handle_event_grows.
Qed.
End turn_facts.

Section turn_claims.
Context {W : Type} `{VectorStores W} `{PyRuntime}.
Implicit Types (acc : TurnAccumulator) (event : StreamEvent) (app : App W).

(** Once the vector store is ensured, a turn is the loop run on fresh
    buffers. *)
Lemma run_agent_streams agent0 message events app app' vs_id :
  ensure_vector_store app = (app', Ok vs_id) →
  run_agent agent0 message events app
  = (app', {| final := (stream_events events fresh_turn).1.1;
              rendered := (stream_events events fresh_turn).1.2;
              outcome := (stream_events events fresh_turn).2;
              streamed := Some (agent0, message) |}).
Proof.
  intros He. unfold run_agent. rewrite He.
  by destruct (stream_events events fresh_turn) as [[acc shown] r].
Qed.

Lemma update_status_shows st tag :
  text_updates (update_status st tag).2 = [] ∧
  image_updates (update_status st tag).2 = [].
Proof. unfold update_status. by destruct (status_messages !! tag) as [[l s]|]. Qed.

Lemma update_status_unknown st tag :
  status_messages !! tag = None → update_status st tag = (st, []).
Proof. intros Hnone. unfold update_status. by rewrite Hnone. Qed.

Lemma text_escaped_compositional : compositional text_escaped.
Proof.
  split; [by constructor|]. unfold text_escaped. intros _ _ _ shown shown' H1 H2.
  unfold text_updates. rewrite omap_app. by apply Forall_app.
Qed.

Lemma stream_events_text_escaped events acc :
  Forall (λ t, dollars_escaped t = true) (text_updates (stream_events events acc).1.2).
Proof.
  revert acc. apply (respects_stream_events text_escaped);
    [apply text_escaped_compositional|].
  intros event. apply respects_handle_event; [apply text_escaped_compositional|..].
  - intros d _ _ acc. unfold text_escaped, on_status.
    pose proof (update_status_shows (status_container acc) (data_type d)) as [Ht _].
    destruct (update_status _ _) as [st shown]. cbn [fst snd] in *. by rewrite Ht.
  - intros text acc. unfold text_escaped. cbn. repeat constructor.
    apply escape_dollar_escaped_from.
  - intros text acc. unfold text_escaped. cbn. constructor.
  - intros image _ acc. unfold text_escaped. cbn. constructor.
Qed.

(** *** Events that show no image *)

Lemma no_image_compositional : compositional no_image.
Proof.
  split; [done|]. unfold no_image.
  intros a b c shown shown' [H1 H2] [H3 H4]. split; [congruence|].
  unfold image_updates in *. by rewrite omap_app, H2, H4.
Qed.

Lemma stream_events_no_image events acc :
  Forall (λ event, is_partial_image event = false) events →
  image_placeholder (stream_events events acc).1.1 = image_placeholder acc ∧
  image_updates (stream_events events acc).1.2 = [].
Proof.
  intros Hno. revert acc.
  induction Hno as [|event events Hevent _ IH]; intros acc; [done|].
  cbn [stream_events].
  apply (respects_bind no_image (handle_event event) (λ _, stream_events events));
    [apply no_image_compositional| |by intros _].
  apply respects_handle_event; [apply no_image_compositional|..].
  - intros d _ _ a. unfold no_image, on_status.
    pose proof (update_status_shows (status_container a) (data_type d)) as [_ Hi].
    by destruct (update_status _ _) as [st shown].
  - by intros text a.
  - by intros text a.
  - intros image Himg. congruence.
Qed.

Lemma handle_partial_image payload image acc :
  b64decode payload = Ok image →
  handle_event (partial_image payload) acc
  = ({| response := response acc;
        code_response := code_response acc;
        image_placeholder := Some image;
        status_container := status_container acc |}, [SetImage image], Ok ()).
Proof.
  intros Hdec. destruct acc as [text code shown st].
  unfold handle_event, partial_image, when, turn_bind, getattr, lift, on_status,
    is_type.
  cbn [event_type data data_type delta partial_image_b64].
  rewrite bool_decide_eq_true_2 by done.
  rewrite !bool_decide_eq_false_2 by done.
  rewrite bool_decide_eq_true_2 by done.
  rewrite update_status_unknown by done.
  cbn [status_container response code_response image_placeholder].
  rewrite Hdec. reflexivity.
Qed.
End turn_claims.

Section turn_theorems.
Context {W : Type} `{VectorStores W} `{PyRuntime}.
Implicit Types (acc : TurnAccumulator) (event : StreamEvent) (app : App W).

Lemma same_status_compositional : compositional same_status.
Proof. split; [done|]. unfold same_status. intros a b c _ _. congruence. Qed.

Lemma on_status_unknown tag acc :
  status_messages !! tag = None → on_status tag acc = (acc, [], Ok ()).
Proof.
  intros Hnone. unfold on_status. rewrite update_status_unknown by done.
  by destruct acc.
Qed.

Lemma handle_event_same_status event acc :
  (∀ d, data event = Some d → status_messages !! data_type d = None) →
  status_container (handle_event event acc).1.1 = status_container acc.
Proof.
  intros Hnone. revert acc.
  apply (respects_handle_event same_status); [apply same_status_compositional|..].
  - intros d _ Hd acc. by rewrite on_status_unknown by eauto.
  - by intros text acc.
  - by intros text acc.
  - by intros image _ acc.
Qed.

Lemma handle_event_unknown event d acc :
  data event = Some d →
  status_messages !! data_type d = None →
  data_type d ∉ payload_tags →
  handle_event event acc = (acc, [], Ok ()).
Proof.
  intros Hd Hnone Hpayload. unfold handle_event, when.
  destruct (bool_decide (event_type event = "raw_response_event")); [|done].
  unfold payload_tags in Hpayload.
  apply not_elem_of_cons in Hpayload as [Htext Hpayload].
  apply not_elem_of_cons in Hpayload as [Hcode Hpayload].
  apply not_elem_of_cons in Hpayload as [Himage _].
  rewrite Hd. unfold turn_bind, getattr, is_type.
  rewrite on_status_unknown by done.
  rewrite (bool_decide_eq_false_2 _ Htext), (bool_decide_eq_false_2 _ Hcode),
    (bool_decide_eq_false_2 _ Himage).
  by destruct acc.
Qed.

Lemma two_partial_images p1 p2 img1 img2 acc :
  b64decode p1 = Ok img1 → b64decode p2 = Ok img2 →
  stream_events [partial_image p1; partial_image p2] acc
  = ({| response := response acc;
        code_response := code_response acc;
        image_placeholder := Some img2;
        status_container := status_container acc |},
     [SetImage img1; SetImage img2], Ok ()).
Proof.
  intros H1 H2. cbn [stream_events]. unfold turn_bind.
  rewrite (handle_partial_image p1 img1) by done.
  by rewrite (handle_partial_image p2 img2) by done.
Qed.

Lemma status_messages_labels tag l s :
  status_messages !! tag = Some (l, s) → l ≠ "⏳".
Proof.
  intros Hl. unfold status_messages in Hl. apply elem_of_list_to_map_2 in Hl.
  repeat (apply elem_of_cons in Hl as [Hl|Hl]; [by injection Hl as -> -> ->|]).
  by apply elem_of_nil in Hl.
Qed.

Lemma paint_message_unknown message :
  unknown_kind message → paint_message message = ([], Ok ()).
Proof.
  intros [Hrole Htype]. unfold paint_message, paint_role, paint_type.
  rewrite Hrole. destruct (message !! "type") as [t|]; [|done].
  specialize (Htype t eq_refl). unfold known_types in Htype.
  repeat (apply Forall_cons in Htype as [-> Htype]). done.
Qed.

Lemma paint_history_skips pre post message :
  paint_message message = ([], Ok ()) →
  paint_history (pre ++ message :: post) = paint_history (pre ++ post).
Proof.
  intros Hskip. induction pre as [|first pre IH]; cbn [app paint_history].
  - rewrite Hskip. by destruct (paint_history post) as [shown r].
  - by rewrite IH.
Qed.

(** C1. The stream of a turn that announces a call in progress, sends
    the text in two pieces and announces a completion: the text sink
    receives ["Hel"] and then ["Hello"], each time the whole text so far,
    and the status ends as the pair the table has for the completion
    tag, whose state is ["complete"]. The two status updates are the only
    other operations emitted. *)
Theorem run_agent_hello agent0 message app app' vs_id t1 t2 :
  ensure_vector_store app = (app', Ok vs_id) →
  t1 ∈ in_progress_tags →
  t2 ∈ completed_tags →
  let t := (run_agent agent0 message
              [status_event t1; text_delta "Hel"; text_delta "lo"; status_event t2]
              app).2 in
  outcome t = Ok () ∧
  text_updates (rendered t) = ["Hel"; "Hello"] ∧
  response (final t) = "Hello" ∧
  ∃ l1 s1 l2,
    status_messages !! t1 = Some (l1, s1) ∧
    status_messages !! t2 = Some (l2, "complete") ∧
    rendered t = [SetStatus l1 s1; SetText "Hel"; SetText "Hello";
                  SetStatus l2 "complete"] ∧
    status_container (final t) = {| label := l2; state := "complete" |}.
Proof.
  intros He Ht1 Ht2 t. subst t.
  rewrite (run_agent_streams _ _ _ _ _ _ He). cbn [snd final rendered outcome].
  unfold in_progress_tags in Ht1. unfold completed_tags in Ht2.
  repeat (apply elem_of_cons in Ht1 as [->|Ht1]); [..|by apply elem_of_nil in Ht1];
    (repeat (apply elem_of_cons in Ht2 as [->|Ht2]); [..|by apply elem_of_nil in Ht2]);
    vm_compute; (split_and!; [reflexivity..|]); eexists _, _, _;
    split_and!; reflexivity.
Qed.

(** C6. The escaping puts a backslash before every dollar sign and
    changes nothing else, so ["$5"] becomes ["\$5"]. Every text that the
    loop hands to the text sink is the escaped text so far, hence has all
    its dollar signs escaped, and a replayed assistant message is written
    escaped as well. *)
Theorem dollar_signs_escaped :
  escape_dollar "$5" = "\$5" ∧
  (∀ s, escape_dollar s = backslash_each_dollar s ∧
        dollars_escaped (escape_dollar s) = true) ∧
  (∀ text acc,
     (handle_event (text_delta text) acc).1.2
     = [SetText (escape_dollar (response acc +:+ text))]) ∧
  (∀ events acc,
     Forall (λ t, dollars_escaped t = true)
            (text_updates (stream_events events acc).1.2)) ∧
  (∀ (message first : gmap string pyval) role rest text,
     message !! "role" = Some role →
     py_eq_str role "user" = false →
     message !! "type" = Some (PStr "message") →
     message !! "content" = Some (PList (PDict first :: rest)) →
     first !! "text" = Some (PStr text) →
     paint_message message
     = ([ShowBubble role [Write (escape_dollar text)]], Ok ())).
Proof.
  split_and!.
  - reflexivity.
  - intros s. split; [apply escape_dollar_backslash_each_dollar|].
    apply escape_dollar_escaped_from.
  - intros text acc. unfold handle_event, text_delta, when, turn_bind, getattr, is_type.
    cbn [event_type data data_type delta partial_image_b64].
    rewrite !bool_decide_eq_true_2 by done.
    rewrite !bool_decide_eq_false_2 by done.
    by rewrite on_status_unknown by done.
  - apply stream_events_text_escaped.
  - intros message first role rest text Hrole Huser Htype Hcontent Htext.
    unfold paint_message, paint_role, paint_role_body, paint_type, item_get.
    rewrite Hrole, Huser, Htype, Hcontent. cbn [from_option].
    unfold py_eq_str. rewrite bool_decide_eq_true_2 by done.
    cbn [mbind result_bind py_getitem_0 py_getitem_key]. rewrite Htext.
    cbn [py_escape_dollar]. by rewrite !bool_decide_eq_false_2 by done.
Qed.

(** C7. Two partial images that follow each other in the stream of a
    turn: the second one is what the image sink shows in the end (until
    another image event comes), and the sink received the two images one
    after the other, nothing of the first being kept. *)
Theorem run_agent_last_partial_image agent0 message pre post app app' vs_id
    p1 p2 img1 img2 :
  ensure_vector_store app = (app', Ok vs_id) →
  (stream_events pre fresh_turn).2 = Ok () →
  b64decode p1 = Ok img1 →
  b64decode p2 = Ok img2 →
  Forall (λ event, is_partial_image event = false) post →
  let t := (run_agent agent0 message
              (pre ++ [partial_image p1; partial_image p2] ++ post) app).2 in
  image_placeholder (final t) = Some img2 ∧
  last (image_updates (rendered t)) = Some img2 ∧
  image_updates (rendered t)
  = image_updates (stream_events pre fresh_turn).1.2 ++ [img1; img2].
Proof.
  intros He Hpre H1 H2 Hpost t. subst t.
  rewrite (run_agent_streams _ _ _ _ _ _ He). cbn [snd final rendered].
  destruct (stream_events pre fresh_turn) as [[acc1 shown1] r1] eqn:Epre.
  cbn [snd fst] in *. subst r1.
  set (acc2 := {| response := response acc1;
                  code_response := code_response acc1;
                  image_placeholder := Some img2;
                  status_container := status_container acc1 |}).
  destruct (stream_events_no_image post acc2 Hpost) as [Himage Hshown].
  destruct (stream_events post acc2) as [[acc3 shown3] r3] eqn:Epost.
  assert (stream_events (pre ++ [partial_image p1; partial_image p2] ++ post) fresh_turn
          = (acc3, shown1 ++ [SetImage img1; SetImage img2] ++ shown3, r3)) as ->.
  { rewrite stream_events_app. unfold turn_bind. rewrite Epre.
    rewrite stream_events_app. unfold turn_bind.
    rewrite (two_partial_images p1 p2 img1 img2) by done.
    fold acc2. by rewrite Epost. }
  cbn [fst snd image_placeholder] in *.
  assert (image_updates (shown1 ++ [SetImage img1; SetImage img2] ++ shown3)
          = image_updates shown1 ++ [img1; img2]) as ->.
  { unfold image_updates in *. by rewrite !omap_app, Hshown. }
  split_and!; [done| |done].
  by rewrite (assoc_L (++) _ [img1] [img2]), last_snoc.
Qed.

(** C8. A tag the status table does not have leaves the status widget as
    it is: [update_status] sends no update and raises nothing, in the
    loop too, and an event whose tag the loop knows nothing about
    changes nothing at all. In the replay an item of an unknown kind
    shows nothing and raises nothing: the history is painted as if the
    item were not there. *)
Theorem unknown_tags_and_kinds_are_skipped :
  (∀ st tag, status_messages !! tag = None → update_status st tag = (st, [])) ∧
  (∀ tag acc, status_messages !! tag = None → on_status tag acc = (acc, [], Ok ())) ∧
  (∀ event acc,
     (∀ d, data event = Some d → status_messages !! data_type d = None) →
     status_container (handle_event event acc).1.1 = status_container acc) ∧
  (∀ event d acc,
     data event = Some d →
     status_messages !! data_type d = None →
     data_type d ∉ payload_tags →
     handle_event event acc = (acc, [], Ok ())) ∧
  (∀ message, unknown_kind message → paint_message message = ([], Ok ())) ∧
  (∀ pre post message,
     unknown_kind message →
     paint_history (pre ++ message :: post) = paint_history (pre ++ post)).
Proof.
  split_and!.
  - apply update_status_unknown.
  - apply on_status_unknown.
  - apply handle_event_same_status.
  - apply handle_event_unknown.
  - apply paint_message_unknown.
  - intros pre post message Hkind.
    by apply paint_history_skips, paint_message_unknown.
Qed.

(** C9. The buffers of a turn start from [fresh_turn]: empty text, empty
    code, no image, and the status widget as it is created (the hourglass
    label, running: no entry of the status table has this label, so no
    status has been set yet). A turn that follows another one is the loop run on
    these fresh buffers, whatever the turn before it left (or it shows
    nothing, when the vector store could not be ensured). Within a turn
    the buffers only grow: at every point of the stream the text and the
    code are extended at their end and a shown image is never taken
    away. *)
Theorem run_agent_starts_fresh agent1 message1 events1 agent2 message2 events2 app :
  (response fresh_turn = EmptyString ∧
   code_response fresh_turn = EmptyString ∧
   image_placeholder fresh_turn = None ∧
   status_container fresh_turn = {| label := "⏳"; state := "running" |} ∧
   ∀ tag l s, status_messages !! tag = Some (l, s) →
              l ≠ label (status_container fresh_turn)) ∧
  (let app1 := (run_agent agent1 message1 events1 app).1 in
   let t2 := (run_agent agent2 message2 events2 app1).2 in
   match (ensure_vector_store app1).2 with
   | Ok _ =>
       final t2 = (stream_events events2 fresh_turn).1.1 ∧
       rendered t2 = (stream_events events2 fresh_turn).1.2 ∧
       outcome t2 = (stream_events events2 fresh_turn).2
   | Raise e =>
       final t2 = fresh_turn ∧ rendered t2 = [] ∧ outcome t2 = Raise e
   end) ∧
  (∀ pre post acc,
     grows (stream_events pre acc).1.1 (stream_events (pre ++ post) acc).1.1) ∧
  (∀ events acc, grows acc (stream_events events acc).1.1).
Proof.
  split_and!; try reflexivity.
  - apply status_messages_labels.
  - intros app1 t2. subst t2.
    destruct (ensure_vector_store app1) as [app2 [vs_id|e]] eqn:He; cbn [snd].
    + by rewrite (run_agent_streams _ _ _ _ _ _ He).
    + unfold run_agent. by rewrite He.
  - intros pre post acc. rewrite stream_events_app. unfold turn_bind.
    destruct (stream_events pre acc) as [[acc1 shown1] [[]|e]];
      [|apply grows_refl].
    pose proof (stream_events_grows post acc1) as Hgrows.
    by destruct (stream_events post acc1) as [[acc2 shown2] r].
  - apply stream_events_grows.
Qed.
End turn_theorems.

(** C10. The table pairs the two tags of a code interpreter call that is
    still under way with the label of running code and the state
    ["complete"], not ["running"]: that is what [update_status] sets. *)
Theorem running_code_is_shown_complete :
  status_messages !! "response.code_interpreter_call.in_progress"
  = Some ("🤖 Running code...", "complete") ∧
  status_messages !! "response.code_interpreter_call.interpreting"
  = Some ("🤖 Running code...", "complete") ∧
  (∀ st,
     update_status st "response.code_interpreter_call.in_progress"
     = ({| label := "🤖 Running code..."; state := "complete" |},
        [SetStatus "🤖 Running code..." "complete"]) ∧
     update_status st "response.code_interpreter_call.interpreting"
     = ({| label := "🤖 Running code..."; state := "complete" |},
        [SetStatus "🤖 Running code..." "complete"]) ∧
     state (update_status st "response.code_interpreter_call.in_progress").1
     ≠ "running" ∧
     state (update_status st "response.code_interpreter_call.interpreting").1
     ≠ "running").
Proof.
  split_and!; try reflexivity.
  intros st. split_and!; [reflexivity..| |]; vm_compute; discriminate.
Qed.

Lemma run_agent_hello_witness :
  let app := new_session {| stores := [DEFAULT_VECTOR_STORE_ID];
                            outages := []; issued := 0 |} in
  let t := (run_agent (new_agent DEFAULT_VECTOR_STORE_ID) "say hello"
              [status_event "response.web_search_call.in_progress";
               text_delta "Hel"; text_delta "lo";
               status_event "response.completed"] app).2 in
  outcome t = Ok () ∧
  text_updates (rendered t) = ["Hel"; "Hello"] ∧
  response (final t) = "Hello" ∧
  ∃ l1 s1 l2,
    status_messages !! "response.web_search_call.in_progress" = Some (l1, s1) ∧
    status_messages !! "response.completed" = Some (l2, "complete") ∧
    rendered t = [SetStatus l1 s1; SetText "Hel"; SetText "Hello";
                  SetStatus l2 "complete"] ∧
    status_container (final t) = {| label := l2; state := "complete" |}.
Proof.
  intros app.
  eapply (run_agent_hello (new_agent DEFAULT_VECTOR_STORE_ID) "say hello" app);
    [reflexivity|repeat constructor..].
Defined.

Lemma dollar_signs_escaped_witness :
  paint_message
    (list_to_map
       [("role", PStr "assistant"); ("type", PStr "message");
        ("content",
         PList [PDict (list_to_map [("type", PStr "output_text");
                                    ("text", PStr "It costs $5")])])])
  = ([ShowBubble (PStr "assistant") [Write "It costs \$5"]], Ok ()).
Proof.
  apply (proj2 (proj2 (proj2 (proj2 dollar_signs_escaped))) _
           (list_to_map [("type", PStr "output_text"); ("text", PStr "It costs $5")])
           (PStr "assistant") [] "It costs $5"); reflexivity.
Defined.

Lemma run_agent_last_partial_image_witness :
  let app := new_session {| stores := [DEFAULT_VECTOR_STORE_ID];
                            outages := []; issued := 0 |} in
  let t := (run_agent (new_agent DEFAULT_VECTOR_STORE_ID) "draw"
              ([status_event "response.image_generation_call.in_progress"]
               ++ [partial_image "aGk="; partial_image "SGVsbG8h"]
               ++ [status_event "response.completed"]) app).2 in
  let hi := [Byte.x68; Byte.x69] in
  let hello := [Byte.x48; Byte.x65; Byte.x6c; Byte.x6c; Byte.x6f; Byte.x21] in
  image_placeholder (final t) = Some hello ∧
  last (image_updates (rendered t)) = Some hello ∧
  image_updates (rendered t) = [] ++ [hi; hello].
Proof.
  intros app t hi hello.
  eapply (run_agent_last_partial_image (new_agent DEFAULT_VECTOR_STORE_ID) "draw"
            [status_event "response.image_generation_call.in_progress"]
            [status_event "response.completed"] app);
    [reflexivity..|repeat constructor].
Defined.

Lemma unknown_tags_and_kinds_are_skipped_witness :
  (∀ acc, handle_event (status_event "response.created") acc = (acc, [], Ok ())) ∧
  paint_history
    ([{[ "type" := PStr "web_search_call" ]}]
     ++ {[ "type" := PStr "reasoning" ]} :: [{[ "type" := PStr "file_search_call" ]}])
  = paint_history
      ([{[ "type" := PStr "web_search_call" ]}]
       ++ [{[ "type" := PStr "file_search_call" ]}]).
Proof.
  destruct (@unknown_tags_and_kinds_are_skipped example_runtime)
    as (_ & _ & _ & Hevent & _ & Hhistory).
  split.
  - intros acc. eapply Hevent; [reflexivity|reflexivity|].
    unfold payload_tags. intros Hin.
    repeat (apply elem_of_cons in Hin as [Hin|Hin]; [discriminate Hin|]).
    by apply elem_of_nil in Hin.
  - apply Hhistory. split; [reflexivity|]. intros t Ht. vm_compute in Ht.
    injection Ht as <-. repeat constructor.
Defined.

(** C5, at a failing input. The first run of the script finds the
    fallback store and builds the agent on it. The store is then deleted
    behind the back of the process. On the next run, with a prompt, the
    reconciler creates a new store and remembers it, and [run_agent]
    ensures it once more; yet the turn is streamed with the agent built
    in the first run, whose file search still reads the deleted store. *)
Theorem turn_searches_deleted_store :
  let app0 := new_session {| stores := [DEFAULT_VECTOR_STORE_ID];
                             outages := []; issued := 0 |} in
  let app1 := (script [] None [] app0).1 in
  let app2 := delete_out_of_band DEFAULT_VECTOR_STORE_ID app1 in
  let run := script [] (Some "what is in my file?") [text_delta "ok"] app2 in
  file_search_ids <$> agent (session_state app1) = Some [DEFAULT_VECTOR_STORE_ID] ∧
  script_outcome run.2 = Ok () ∧
  VECTOR_STORE_ID (session_state run.1) = Some "vs_new_0" ∧
  stores (backend run.1) = ["vs_new_0"] ∧
  ∃ t a,
    turn run.2 = Some t ∧
    streamed t = Some (a, "what is in my file?") ∧
    file_search_ids a = [DEFAULT_VECTOR_STORE_ID] ∧
    DEFAULT_VECTOR_STORE_ID ∉ stores (backend run.1).
Proof.
  vm_compute. split_and!; [reflexivity..|]. eexists _, _.
  split_and!; [reflexivity..|].
  intros Hin. apply elem_of_cons in Hin as [Hin|Hin]; [discriminate Hin|].
  by apply elem_of_nil in Hin.
Qed.

(** * Further properties *)

(** ** The reconciler *)

Section reconciler_more.
Context {W : Type} `{VectorStores W}.
Implicit Types (app : App W) (id : string).

(** What the loop sends: probes only, one for each candidate at most, each
    of a candidate that is not empty; and at least one when it returns an
    id. *)
Lemma probe_candidates_requests candidates app :
  ∃ new,
    api_log (probe_candidates candidates app).1 = api_log app ++ new ∧
    length new ≤ length candidates ∧
    Forall (λ x, ∃ id r, x = Retrieved id r ∧ Some id ∈ candidates ∧
                         id ≠ EmptyString) new ∧
    (is_Some (probe_candidates candidates app).2 → new ≠ []).
Proof.
  revert app. induction candidates as [|cand rest IH]; intros app.
  - exists []. cbn. rewrite app_nil_r. split_and!; [done..|]. by intros [? ?].
  - cbn [probe_candidates]. destruct (truthy cand) as [id|] eqn:Hcand.
    + apply truthy_Some in Hcand as [-> Hne].
      destruct (vector_stores_retrieve (backend app) id) as [w [[]|e]] eqn:Hr.
      * exists [Retrieved id (Ok ())]. cbn. split_and!; [done|lia| |done].
        constructor; [|done]. exists id, (Ok ()). split_and!; [done|left|done].
      * destruct (IH (sent (Retrieved id (Raise e)) w app))
          as (new & Hlog & Hlen & Hall & Hsome).
        exists (Retrieved id (Raise e) :: new). split_and!.
        -- rewrite Hlog. cbn. by rewrite <-app_assoc.
        -- cbn. lia.
        -- constructor.
           ++ exists id, (Raise e). split_and!; [done|left|done].
           ++ eapply Forall_impl; [exact Hall|].
              intros x (id' & r & -> & Hin & Hne'). exists id', r.
              split_and!; [done|by right|done].
        -- done.
    + destruct (IH app) as (new & Hlog & Hlen & Hall & Hsome).
      exists new. split_and!; [done|cbn; lia| |done].
      eapply Forall_impl; [exact Hall|].
      intros x (id' & r & -> & Hin & Hne'). exists id', r.
      split_and!; [done|by right|done].
Qed.

Lemma no_create_filter (new : list api_exchange) :
  Forall (λ x, is_create x = false) new →
  filter (λ x, is_create x = true) new = [].
Proof.
  induction 1 as [|x new Hx _ IH]; [done|].
  rewrite filter_cons. destruct (decide (is_create x = true)); [congruence|done].
Qed.

Lemma ensure_vector_store_remembers app id :
  (ensure_vector_store app).2 = Ok id →
  VECTOR_STORE_ID (session_state (ensure_vector_store app).1) = Some id.
Proof.
  unfold ensure_vector_store.
  set (candidates := [VECTOR_STORE_ID (session_state app); Some DEFAULT_VECTOR_STORE_ID]).
  destruct (probe_candidates_log candidates app) as (probes & _ & Hloop).
  destruct (probe_candidates candidates app) as [app' [cand|]]; cbn [fst snd] in *.
  - intros [= ->]. by destruct Hloop as (_ & Hid & _).
  - destruct (vector_stores_create (backend app') VECTOR_STORE_NAME) as [w [id'|e]];
      cbn; [|done]. by intros [= ->].
Qed.

Lemma probe_candidates_agent candidates app :
  agent (session_state (probe_candidates candidates app).1) = agent (session_state app).
Proof.
  revert app. induction candidates as [|cand rest IH]; intros app; [done|].
  cbn [probe_candidates]. destruct (truthy cand) as [id|]; [|apply IH].
  destruct (vector_stores_retrieve (backend app) id) as [w [[]|e]]; [done|].
  by rewrite IH.
Qed.

Lemma ensure_vector_store_agent app :
  agent (session_state (ensure_vector_store app).1) = agent (session_state app).
Proof.
  unfold ensure_vector_store.
  pose proof (probe_candidates_agent
    [VECTOR_STORE_ID (session_state app); Some DEFAULT_VECTOR_STORE_ID] app) as Hagent.
  destruct (probe_candidates _ app) as [app' [cand|]]; [done|].
  by destruct (vector_stores_create (backend app') VECTOR_STORE_NAME) as [w [id|e]].
Qed.

(** X1. A call of [ensure_vector_store] sends at least one request and at
    most three, and at most one of them is a [create]. *)
Theorem ensure_vector_store_request_count app :
  ∃ new,
    api_log (ensure_vector_store app).1 = api_log app ++ new ∧
    1 ≤ length new ≤ 3 ∧
    length (filter (λ x, is_create x = true) new) ≤ 1.
Proof.
  unfold ensure_vector_store.
  set (candidates := [VECTOR_STORE_ID (session_state app); Some DEFAULT_VECTOR_STORE_ID]).
  destruct (probe_candidates_requests candidates app)
    as (new & Hlog & Hlen & Hall & Hsome).
  change (length new ≤ 2) in Hlen.
  assert (filter (λ x, is_create x = true) new = []) as Hnone.
  { apply no_create_filter. eapply Forall_impl; [exact Hall|].
    by intros x (id & r & -> & _). }
  destruct (probe_candidates candidates app) as [app' [cand|]]; cbn [fst snd] in *.
  - exists new. split_and!; [done| |lia|rewrite Hnone; cbn [length]; lia].
    destruct new; [by destruct Hsome|cbn [length]; lia].
  - destruct (vector_stores_create (backend app') VECTOR_STORE_NAME) as [w r] eqn:Hc.
    exists (new ++ [Created VECTOR_STORE_NAME r]).
    assert (length (new ++ [Created VECTOR_STORE_NAME r]) = S (length new)) as Hl
      by (rewrite length_app; cbn; lia).
    split_and!; [|lia|lia|].
    + destruct r; cbn; by rewrite Hlog, <-app_assoc.
    + rewrite filter_app, Hnone.
      apply (length_filter (λ x, is_create x = true) [Created VECTOR_STORE_NAME r]).
Qed.

(** X2. Every probe that a call sends is a probe of the remembered id or
    of the fallback id, and never of the empty string: an empty
    remembered id is passed over like an absent one. *)
Theorem ensure_vector_store_probes app :
  ∃ new,
    api_log (ensure_vector_store app).1 = api_log app ++ new ∧
    Forall (λ x, match x with
                 | Retrieved id _ =>
                     id ≠ EmptyString ∧
                     (VECTOR_STORE_ID (session_state app) = Some id ∨
                      id = DEFAULT_VECTOR_STORE_ID)
                 | Created name _ => name = VECTOR_STORE_NAME
                 end) new.
Proof.
  unfold ensure_vector_store.
  set (candidates := [VECTOR_STORE_ID (session_state app); Some DEFAULT_VECTOR_STORE_ID]).
  destruct (probe_candidates_requests candidates app)
    as (new & Hlog & _ & Hall & _).
  assert (Forall (λ x, match x with
                       | Retrieved id _ =>
                           id ≠ EmptyString ∧
                           (VECTOR_STORE_ID (session_state app) = Some id ∨
                            id = DEFAULT_VECTOR_STORE_ID)
                       | Created name _ => name = VECTOR_STORE_NAME
                       end) new) as Hprobes.
  { eapply Forall_impl; [exact Hall|].
    intros x (id & r & -> & Hin & Hne). split; [done|].
    unfold candidates in Hin.
    apply elem_of_cons in Hin as [Hin|Hin]; [by left|].
    apply elem_of_cons in Hin as [[= ->]|Hin]; [by right|].
    by apply elem_of_nil in Hin. }
  destruct (probe_candidates candidates app) as [app' [cand|]]; cbn [fst snd] in *.
  - by exists new.
  - destruct (vector_stores_create (backend app') VECTOR_STORE_NAME) as [w r] eqn:Hc.
    exists (new ++ [Created VECTOR_STORE_NAME r]). split.
    + destruct r; cbn; by rewrite Hlog, <-app_assoc.
    + apply Forall_app. split; [done|]. by constructor.
Qed.

(** X3. A call that follows a call that returned an id, on a backend
    that still resolves that id, returns the same id after a single
    probe: it sends no [create] and leaves the session state as it is. *)
Theorem ensure_vector_store_again app id w :
  (ensure_vector_store app).2 = Ok id →
  id ≠ EmptyString →
  vector_stores_retrieve (backend (ensure_vector_store app).1) id = (w, Ok ()) →
  let app1 := (ensure_vector_store app).1 in
  (ensure_vector_store app1).2 = Ok id ∧
  session_state (ensure_vector_store app1).1 = session_state app1 ∧
  backend (ensure_vector_store app1).1 = w ∧
  api_log (ensure_vector_store app1).1 = api_log app1 ++ [Retrieved id (Ok ())].
Proof.
  intros Hok Hne Hr app1. subst app1.
  pose proof (ensure_vector_store_remembers app id Hok) as Hid.
  rewrite (ensure_vector_store_remembered_live _ id w) by done.
  cbn. split_and!; [done| |done..].
  destruct (session_state (ensure_vector_store app).1) as [vs a]. cbn in *.
  by rewrite Hid.
Qed.

(** X4. [ensure_vector_store] never touches the agent kept in the
    session state, whatever it remembers or creates. *)
Theorem ensure_vector_store_keeps_agent app :
  agent (session_state (ensure_vector_store app).1) = agent (session_state app).
Proof. apply ensure_vector_store_agent. Qed.
End reconciler_more.

Lemma ensure_vector_store_again_witness :
  let app := new_session {| stores := []; outages := []; issued := 0 |} in
  let app1 := (ensure_vector_store app).1 in
  (ensure_vector_store app1).2 = Ok "vs_new_0" ∧
  session_state (ensure_vector_store app1).1 = session_state app1 ∧
  backend (ensure_vector_store app1).1
  = {| stores := ["vs_new_0"]; outages := []; issued := 1 |} ∧
  api_log (ensure_vector_store app1).1
  = api_log app1 ++ [Retrieved "vs_new_0" (Ok ())].
Proof.
  intros app.
  apply (ensure_vector_store_again app "vs_new_0"
           {| stores := ["vs_new_0"]; outages := []; issued := 1 |});
    first [reflexivity | discriminate].
Defined.

(** ** The streamed turn *)

Section turn_more.
Context `{PyRuntime}.
Implicit Types (acc : TurnAccumulator) (event : StreamEvent) (d : EventData).

(** *** One round of the loop, case by case *)

Lemma handle_event_not_raw event acc :
  is_raw event = false → handle_event event acc = (acc, [], Ok ()).
Proof. unfold handle_event, is_raw, when. by intros ->. Qed.

Lemma handle_event_no_data event acc :
  is_raw event = true → data event = None →
  handle_event event acc = (acc, [], Raise AttributeError).
Proof. unfold handle_event, is_raw, when, turn_bind, getattr. by intros -> ->. Qed.

Lemma handle_event_text event d acc :
  is_raw event = true → data event = Some d →
  is_type d "response.output_text.delta" = true →
  handle_event event acc
  = match delta d with
    | Some text => on_text_delta text acc
    | None => (acc, [], Raise AttributeError)
    end.
Proof.
  unfold is_raw, is_type. intros Hraw Hd Htag%bool_decide_eq_true.
  unfold handle_event, when, turn_bind, getattr, is_type. rewrite Hraw, Hd, Htag.
  rewrite bool_decide_eq_true_2 by done.
  rewrite !bool_decide_eq_false_2 by done.
  rewrite on_status_unknown by done.
  destruct (delta d) as [text|]; [|done]. by destruct acc.
Qed.

Lemma handle_event_code event d acc :
  is_raw event = true → data event = Some d →
  is_type d "response.code_interpreter_call_code.delta" = true →
  handle_event event acc
  = match delta d with
    | Some text => on_code_delta text acc
    | None => (acc, [], Raise AttributeError)
    end.
Proof.
  unfold is_raw, is_type. intros Hraw Hd Htag%bool_decide_eq_true.
  unfold handle_event, when, turn_bind, getattr, is_type. rewrite Hraw, Hd, Htag.
  rewrite bool_decide_eq_false_2 by done.
  rewrite bool_decide_eq_true_2 by done.
  rewrite on_status_unknown by done.
  destruct (delta d) as [text|]; [|done]. by destruct acc.
Qed.

Lemma handle_event_image event d acc :
  is_raw event = true → data event = Some d →
  is_type d "response.image_generation_call.partial_image" = true →
  handle_event event acc
  = match partial_image_b64 d with
    | Some payload =>
        match b64decode payload with
        | Ok image => on_partial_image image acc
        | Raise e => (acc, [], Raise e)
        end
    | None => (acc, [], Raise AttributeError)
    end.
Proof.
  unfold is_raw, is_type. intros Hraw Hd Htag%bool_decide_eq_true.
  unfold handle_event, when, turn_bind, getattr, lift, is_type.
  rewrite Hraw, Hd, Htag.
  rewrite !bool_decide_eq_false_2 by done.
  rewrite bool_decide_eq_true_2 by done.
  rewrite on_status_unknown by done.
  destruct (partial_image_b64 d) as [payload|]; [|done].
  destruct (b64decode payload) as [image|e]; [|done]. by destruct acc.
Qed.

Lemma handle_event_status event d acc :
  is_raw event = true → data event = Some d →
  is_type d "response.output_text.delta" = false →
  is_type d "response.code_interpreter_call_code.delta" = false →
  is_type d "response.image_generation_call.partial_image" = false →
  handle_event event acc = on_status (data_type d) acc.
Proof.
  unfold is_raw. intros Hraw Hd Htext Hcode Himage.
  unfold handle_event, when, turn_bind, getattr. rewrite Hraw, Hd, Htext, Hcode, Himage.
  unfold on_status, turn_ret. destruct (update_status _ _) as [st shown].
  by rewrite !app_nil_r.
Qed.

Lemma is_type_exclusive d tag tag' :
  tag ≠ tag' → is_type d tag = true → is_type d tag' = false.
Proof.
  unfold is_type. intros Hne Htag%bool_decide_eq_true.
  apply bool_decide_eq_false_2. congruence.
Qed.

Lemma update_status_cases st tag :
  update_status st tag = (st, []) ∨
  ∃ l s, status_messages !! tag = Some (l, s) ∧
         update_status st tag = ({| label := l; state := s |}, [SetStatus l s]).
Proof.
  unfold update_status. destruct (status_messages !! tag) as [[l s]|]; eauto.
Qed.
End turn_more.

Section turn_extras.
Context `{PyRuntime}.
Implicit Types (acc : TurnAccumulator) (event : StreamEvent) (d : EventData).

(** *** The buffers are the deltas put end to end *)

Lemma on_status_buffers tag acc :
  response (on_status tag acc).1.1 = response acc ∧
  code_response (on_status tag acc).1.1 = code_response acc ∧
  image_placeholder (on_status tag acc).1.1 = image_placeholder acc ∧
  (on_status tag acc).2 = Ok ().
Proof. unfold on_status. by destruct (update_status _ _) as [st shown]. Qed.

Lemma handle_event_deltas event acc :
  response (handle_event event acc).1.1
  = response acc +:+ delta_of "response.output_text.delta" event ∧
  code_response (handle_event event acc).1.1
  = code_response acc +:+ delta_of "response.code_interpreter_call_code.delta" event.
Proof.
  unfold delta_of. destruct (is_raw event) eqn:Hraw.
  2: { rewrite handle_event_not_raw by done. by rewrite !append_empty_r. }
  destruct (data event) as [d|] eqn:Hd.
  2: { rewrite handle_event_no_data by done. by rewrite !append_empty_r. }
  destruct (is_type d "response.output_text.delta") eqn:Htext.
  { rewrite (handle_event_text event d) by done.
    assert (is_type d "response.code_interpreter_call_code.delta" = false) as ->
      by (apply (is_type_exclusive d "response.output_text.delta"); [discriminate|done]).
    destruct (delta d); cbn; by rewrite !append_empty_r. }
  destruct (is_type d "response.code_interpreter_call_code.delta") eqn:Hcode.
  { rewrite (handle_event_code event d) by done.
    destruct (delta d); cbn; by rewrite !append_empty_r. }
  destruct (is_type d "response.image_generation_call.partial_image") eqn:Himage.
  { rewrite (handle_event_image event d) by done.
    destruct (partial_image_b64 d) as [payload|]; [|by rewrite !append_empty_r].
    destruct (b64decode payload); cbn; by rewrite !append_empty_r. }
  rewrite (handle_event_status event d) by done.
  destruct (on_status_buffers (data_type d) acc) as (-> & -> & _).
  by rewrite !append_empty_r.
Qed.

(** X5. When the loop runs to its end, the text buffer is the text it
    started with followed by the deltas of the text events, in the order
    of the stream, and the code buffer likewise with the code events:
    no delta is lost, repeated or reordered, and no other event adds to
    them. *)
Theorem stream_events_concatenates events acc :
  (stream_events events acc).2 = Ok () →
  response (stream_events events acc).1.1
  = response acc +:+ deltas_of "response.output_text.delta" events ∧
  code_response (stream_events events acc).1.1
  = code_response acc
    +:+ deltas_of "response.code_interpreter_call_code.delta" events.
Proof.
  revert acc. induction events as [|event events IH]; intros acc Hok.
  - cbn. by rewrite !append_empty_r.
  - cbn [stream_events deltas_of foldr] in *. unfold turn_bind in *.
    destruct (handle_event_deltas event acc) as [Htext Hcode].
    destruct (handle_event event acc) as [[acc1 shown1] [[]|e]]; [|done].
    specialize (IH acc1).
    destruct (stream_events events acc1) as [[acc2 shown2] r]. cbn [fst snd] in *.
    destruct (IH Hok) as [-> ->]. rewrite Htext, Hcode.
    by rewrite !append_assoc.
Qed.

(** X6. The loop stops at the first event that raises: what the events
    before it and that event itself showed stays shown, the exception is
    the outcome, and the events after it have no effect at all. *)
Theorem stream_events_stops pre event post acc acc1 shown1 acc2 shown2 e :
  stream_events pre acc = (acc1, shown1, Ok ()) →
  handle_event event acc1 = (acc2, shown2, Raise e) →
  stream_events (pre ++ event :: post) acc = (acc2, shown1 ++ shown2, Raise e).
Proof.
  intros Hpre Hevent. rewrite stream_events_app. unfold turn_bind. rewrite Hpre.
  cbn [stream_events]. unfold turn_bind. by rewrite Hevent.
Qed.

(** X7. Events that are not raw response events are ignored: a stream
    and the same stream without them give the same buffers, the same
    operations and the same outcome. *)
Theorem stream_events_ignores_other_events events acc :
  stream_events (filter (λ event, is_raw event = true) events) acc
  = stream_events events acc.
Proof.
  revert acc. induction events as [|event events IH]; intros acc; [done|].
  rewrite filter_cons. destruct (decide (is_raw event = true)) as [Hraw|Hraw].
  - cbn [stream_events]. apply turn_bind_ext. intros _ acc'. apply IH.
  - apply not_true_is_false in Hraw. cbn [stream_events]. unfold turn_bind.
    rewrite handle_event_not_raw by done. rewrite IH.
    by destruct (stream_events events acc) as [[acc' shown] r].
Qed.

(** X8. A partial image whose payload cannot be decoded raises the
    exception of the decoder; nothing is shown for it and the four
    buffers are as before, so the image shown before stays. *)
Theorem handle_event_bad_image payload e acc :
  b64decode payload = Raise e →
  handle_event (partial_image payload) acc = (acc, [], Raise e).
Proof.
  intros Hdec.
  rewrite (handle_event_image (partial_image payload)
             {| data_type := "response.image_generation_call.partial_image";
                delta := None; partial_image_b64 := Some payload |}) by done.
  cbn [partial_image_b64]. by rewrite Hdec.
Qed.

(** *** The status widget *)

Lemma status_messages_states tag l s :
  status_messages !! tag = Some (l, s) → s = "running" ∨ s = "complete".
Proof.
  intros Hl. unfold status_messages in Hl. apply elem_of_list_to_map_2 in Hl.
  repeat (apply elem_of_cons in Hl as [Hl|Hl]; [injection Hl as -> -> ->; auto|]).
  by apply elem_of_nil in Hl.
Qed.

Lemma keeps_valid_status_compositional : compositional keeps_valid_status.
Proof.
  split; [by split; [|constructor]|]. unfold keeps_valid_status.
  intros a b c shown shown' [H1 H2] [H3 H4]. split; [auto|].
  unfold status_updates. rewrite omap_app. by apply Forall_app.
Qed.

Lemma stream_events_keeps_valid_status events acc :
  keeps_valid_status acc (stream_events events acc).1.2 (stream_events events acc).1.1.
Proof.
  revert acc. apply (respects_stream_events keeps_valid_status);
    [apply keeps_valid_status_compositional|].
  intros event. apply respects_handle_event;
    [apply keeps_valid_status_compositional|..].
  - intros d _ _ acc. unfold keeps_valid_status, on_status.
    destruct (update_status_cases (status_container acc) (data_type d))
      as [->|(l & s & Hl & ->)]; cbn.
    + by split; [|constructor].
    + apply status_messages_states in Hl.
      split; [by intros _|]. constructor; [exact Hl|constructor].
  - intros text acc. by split; [|constructor].
  - intros text acc. by split; [|constructor].
  - intros image _ acc. by split; [|constructor].
Qed.

(** X9. The status widget of a turn is always in the state ["running"]
    or ["complete"]: it starts running, every update the loop sends
    carries one of the two states, and so does the widget at the end of
    any stream, whether the stream raised or not. *)
Theorem stream_events_status_states events :
  Forall valid_state (status_updates (stream_events events fresh_turn).1.2) ∧
  valid_state (status_container (stream_events events fresh_turn).1.1).
Proof.
  destruct (stream_events_keeps_valid_status events fresh_turn) as [Hend Hall].
  split; [done|]. apply Hend. by left.
Qed.
End turn_extras.

Section sinks.
Context `{PyRuntime}.
Implicit Types (acc : TurnAccumulator) (event : StreamEvent).

(** *** The sinks show the buffers *)

Lemma tracks_compositional {A B} (updates : list RenderOp → list A)
    (buffer : TurnAccumulator → B) (view : B → option A) :
  (∀ shown shown', updates (shown ++ shown') = updates shown ++ updates shown') →
  updates [] = [] →
  compositional (tracks updates buffer view).
Proof.
  intros Happ Hnil. split; unfold tracks.
  - intros acc. by rewrite Hnil.
  - intros a b c shown shown' H1 H2. rewrite Happ, last_app.
    destruct (last (updates shown')) as [y|]; [done|].
    destruct (last (updates shown)) as [x|]; congruence.
Qed.

Lemma compositional_and (R R' : step_rel) :
  compositional R → compositional R' →
  compositional (λ before shown after, R before shown after ∧ R' before shown after).
Proof.
  intros [Hrefl Htrans] [Hrefl' Htrans']. split; [by split|].
  intros a b c shown shown' [H1 H1'] [H2 H2']. split; eauto.
Qed.

Lemma shows_buffers_compositional : compositional shows_buffers.
Proof.
  unfold shows_buffers. repeat apply compositional_and;
    (apply tracks_compositional; [intros shown shown'; apply omap_app|done]).
Qed.

Lemma stream_events_shows events acc :
  shows_buffers acc (stream_events events acc).1.2 (stream_events events acc).1.1.
Proof.
  revert acc. apply (respects_stream_events shows_buffers);
    [apply shows_buffers_compositional|].
  intros event. apply respects_handle_event; [apply shows_buffers_compositional|..].
  - intros d _ _ acc. unfold on_status.
    destruct (update_status_cases (status_container acc) (data_type d))
      as [->|(l & s & _ & ->)]; by cbn.
  - by intros text acc.
  - by intros text acc.
  - by intros image _ acc.
Qed.

(** X10. At the end of any stream, and whether it raised or not, each
    sink shows its buffer: the last text written is the escaped text
    buffer, the last code the code buffer, the last image the image
    buffer and the last status update the status widget; a sink that
    received nothing has its buffer as it was at the start. *)
Theorem stream_events_sinks_show_buffers events acc :
  let after := (stream_events events acc).1.1 in
  let shown := (stream_events events acc).1.2 in
  match last (text_updates shown) with
  | Some text => text = escape_dollar (response after)
  | None => response after = response acc
  end ∧
  match last (code_updates shown) with
  | Some code => code = code_response after
  | None => code_response after = code_response acc
  end ∧
  match last (image_updates shown) with
  | Some image => image_placeholder after = Some image
  | None => image_placeholder after = image_placeholder acc
  end ∧
  match last (status_updates shown) with
  | Some st => st = status_container after
  | None => status_container after = status_container acc
  end.
Proof.
  intros after shown. subst after shown.
  destruct (stream_events_shows events acc) as (Htext & Hcode & Himage & Hstatus).
  unfold tracks in *. split_and!.
  - destruct (last (text_updates _)); [by injection Htext|done].
  - destruct (last (code_updates _)); [by injection Hcode|done].
  - done.
  - destruct (last (status_updates _)); [by injection Hstatus|done].
Qed.
End sinks.

(** ** The replay *)

Section replay_extras.
Context `{PyRuntime}.
Implicit Types (message : gmap string pyval).

Lemma paint_role_bubbles message :
  Forall (λ op, is_bubble op = true) (paint_role message).1 ∧
  length (paint_role message).1 ≤ 1.
Proof.
  unfold paint_role.
  destruct (message !! "role") as [role|]; [|cbn; split; [constructor|lia]].
  destruct (paint_role_body role message) as [body r]. cbn. split; [|lia].
  by repeat constructor.
Qed.

Lemma paint_type_bubbles message :
  Forall (λ op, is_bubble op = true) (paint_type message).1 ∧
  length (paint_type message).1 ≤ 1.
Proof.
  unfold paint_type, ai_bubble.
  repeat case_match; cbn [fst length]; (split; [repeat constructor|lia]).
Qed.

Lemma paint_message_bubbles message :
  Forall (λ op, is_bubble op = true) (paint_message message).1 ∧
  length (paint_message message).1 ≤ 2.
Proof.
  unfold paint_message.
  destruct (paint_role_bubbles message) as [Hrole Hlen].
  destruct (paint_type_bubbles message) as [Htype Hlen'].
  destruct (paint_role message) as [shown [[]|e]]; cbn [fst] in *.
  - destruct (paint_type message) as [shown' r]. cbn [fst] in *.
    split; [by apply Forall_app|]. rewrite length_app. lia.
  - split; [done|lia].
Qed.

Lemma paint_type_message message :
  message !! "type" = None ∨ message !! "type" = Some (PStr "message") →
  paint_type message = ([], Ok ()).
Proof. unfold paint_type. by intros [->| ->]. Qed.

Lemma paint_parts_dicts (parts : list (gmap string pyval)) :
  paint_parts (PDict <$> parts)
  = (Image <$> omap (λ part, part !! "image_url") parts, Ok ()).
Proof.
  induction parts as [|part parts IH]; [done|].
  cbn [fmap list_fmap paint_parts py_contains py_getitem_key omap list_omap].
  destruct (part !! "image_url") as [src|] eqn:Hsrc.
  - rewrite bool_decide_eq_true_2 by done.
    change (list_fmap _ _ PDict parts) with (PDict <$> parts). by rewrite IH.
  - rewrite bool_decide_eq_false_2 by (by intros [? ?]).
    change (list_fmap _ _ PDict parts) with (PDict <$> parts). by rewrite IH.
Qed.

Lemma paint_message_assistant message first role rest text :
  message !! "role" = Some role →
  py_eq_str role "user" = false →
  message !! "type" = Some (PStr "message") →
  message !! "content" = Some (PList (PDict first :: rest)) →
  first !! "text" = Some (PStr text) →
  paint_message message = ([ShowBubble role [Write (escape_dollar text)]], Ok ()).
Proof.
  intros Hrole Huser Htype Hcontent Htext.
  unfold paint_message, paint_role, paint_role_body, paint_type, item_get.
  rewrite Hrole, Huser, Htype, Hcontent. cbn [from_option].
  unfold py_eq_str. rewrite bool_decide_eq_true_2 by done.
  cbn [mbind result_bind py_getitem_0 py_getitem_key]. rewrite Htext.
  cbn [py_escape_dollar]. by rewrite !bool_decide_eq_false_2 by done.
Qed.

(** X11. The replay goes through the history in order: the operations
    of a history made of two parts are those of the first part followed
    by those of the second, unless an item of the first part raises, and
    then nothing of the second part is shown. *)
Theorem paint_history_appends (pre post : list (gmap string pyval)) :
  paint_history (pre ++ post)
  = match paint_history pre with
    | (shown, Ok _) => (shown ++ (paint_history post).1, (paint_history post).2)
    | (shown, Raise e) => (shown, Raise e)
    end.
Proof.
  induction pre as [|message pre IH]; cbn [app paint_history].
  - by destruct (paint_history post).
  - destruct (paint_message message) as [shown [[]|e]]; [|done].
    rewrite IH. destruct (paint_history pre) as [shown' [[]|e]]; [|done].
    destruct (paint_history post) as [shown'' r]. cbn. by rewrite app_assoc.
Qed.

(** X12. The replay shows chat bubbles and nothing else (it never
    touches the status widget or the placeholders of a turn), and at most
    two bubbles for each item of the history. *)
Theorem paint_history_bubbles (messages : list (gmap string pyval)) :
  Forall (λ op, is_bubble op = true) (paint_history messages).1 ∧
  length (paint_history messages).1 ≤ 2 * length messages.
Proof.
  induction messages as [|message messages [IH IHlen]];
    [cbn; split; [constructor|lia]|].
  cbn [paint_history].
  destruct (paint_message_bubbles message) as [Hm Hlen].
  destruct (paint_message message) as [shown [[]|e]]; cbn [fst length] in *.
  - destruct (paint_history messages) as [shown' r]. cbn [fst] in *.
    split; [by apply Forall_app|]. rewrite length_app. lia.
  - split; [done|lia].
Qed.

(** X13. A message of the user is shown in one bubble of the user. A text
    is written as it is (dollar signs are not escaped there); of a list
    of parts the bubble shows the images of the parts that have an
    [image_url], in order, and nothing for the other parts. *)
Theorem paint_message_user message :
  message !! "role" = Some (PStr "user") →
  message !! "type" = None ∨ message !! "type" = Some (PStr "message") →
  (∀ text,
     message !! "content" = Some (PStr text) →
     paint_message message = ([ShowBubble (PStr "user") [Write text]], Ok ())) ∧
  (∀ parts : list (gmap string pyval),
     message !! "content" = Some (PList (PDict <$> parts)) →
     paint_message message
     = ([ShowBubble (PStr "user")
           (Image <$> omap (λ part, part !! "image_url") parts)], Ok ())).
Proof.
  intros Hrole Htype. split.
  - intros text Hcontent. unfold paint_message, paint_role, paint_role_body, item_get.
    rewrite Hrole, Hcontent, (paint_type_message message Htype).
    unfold py_eq_str. by rewrite bool_decide_eq_true_2 by done.
  - intros parts Hcontent.
    unfold paint_message, paint_role, paint_role_body, item_get.
    rewrite Hrole, Hcontent, (paint_type_message message Htype).
    unfold py_eq_str. rewrite bool_decide_eq_true_2 by done.
    by rewrite paint_parts_dicts.
Qed.

(** X14. The text a turn ended with on the screen is the text the replay
    writes for the assistant message that holds the text buffer of that
    turn: a refresh shows the answer as the stream left it. *)
Theorem replay_shows_streamed_text events acc message first role rest last_text :
  last (text_updates (stream_events events acc).1.2) = Some last_text →
  message !! "role" = Some role →
  py_eq_str role "user" = false →
  message !! "type" = Some (PStr "message") →
  message !! "content" = Some (PList (PDict first :: rest)) →
  first !! "text" = Some (PStr (response (stream_events events acc).1.1)) →
  paint_message message = ([ShowBubble role [Write last_text]], Ok ()).
Proof.
  intros Hlast Hrole Huser Htype Hcontent Htext.
  rewrite (paint_message_assistant message first role rest _ Hrole Huser Htype
             Hcontent Htext).
  destruct (stream_events_shows events acc) as (Hshown & _). unfold tracks in Hshown.
  rewrite Hlast in Hshown. by injection Hshown as ->.
Qed.
End replay_extras.

(** ** The script *)

Section script_extras.
Context {W : Type} `{VectorStores W} `{PyRuntime}.
Implicit Types (app : App W) (a : Agent).

Lemma run_agent_app a message events app :
  (run_agent a message events app).1 = (ensure_vector_store app).1.
Proof.
  unfold run_agent. destruct (ensure_vector_store app) as [app' [vs_id|e]]; [|done].
  by destruct (stream_events events fresh_turn) as [[acc shown] r].
Qed.

Lemma run_agent_streamed a message events app :
  streamed (run_agent a message events app).2 = None ∨
  streamed (run_agent a message events app).2 = Some (a, message).
Proof.
  unfold run_agent. destruct (ensure_vector_store app) as [app' [vs_id|e]]; [|by left].
  destruct (stream_events events fresh_turn) as [[acc shown] r]. by right.
Qed.

(** X15. Once the session state holds an agent, every run of the script
    keeps that very agent, whatever the reconciler finds or creates, and
    a turn of that run is streamed with it: the vector store ids of its
    file search are those it was built with. *)
Theorem script_keeps_agent history prompt events app a :
  agent (session_state app) = Some a →
  agent (session_state (script history prompt events app).1) = Some a ∧
  ∀ t, turn (script history prompt events app).2 = Some t →
       streamed t = None ∨ ∃ message, streamed t = Some (a, message).
Proof.
  intros Ha. unfold script.
  pose proof (ensure_vector_store_agent app) as Hagent. rewrite Ha in Hagent.
  destruct (ensure_vector_store app) as [app1 [vs_id|e]]; cbn [fst] in *; [|done].
  rewrite Hagent. cbn [default from_option id].
  destruct (paint_history history) as [shown [[]|e]]; [|done].
  destruct prompt as [[|c text]|]; [done| |done].
  pose proof (run_agent_app a (String c text) events (keep_agent a app1)) as Happ.
  pose proof (run_agent_streamed a (String c text) events (keep_agent a app1)) as Hs.
  destruct (run_agent a (String c text) events (keep_agent a app1)) as [app3 t].
  cbv beta iota zeta. cbn [fst snd turn] in *. split.
  - rewrite Happ. by rewrite ensure_vector_store_agent.
  - intros t' [= <-]. destruct Hs as [Hs|Hs]; eauto.
Qed.

(** X16. A run of the script that finds no agent in the session state
    builds one on the id the reconciler returned at the top of that run. *)
Theorem script_builds_agent history prompt events app app1 vs_id :
  agent (session_state app) = None →
  ensure_vector_store app = (app1, Ok vs_id) →
  agent (session_state (script history prompt events app).1)
  = Some (new_agent vs_id) ∧
  file_search_ids (new_agent vs_id) = [vs_id].
Proof.
  intros Ha He. split; [|done]. unfold script.
  pose proof (ensure_vector_store_agent app) as Hagent. rewrite Ha, He in Hagent.
  rewrite He. cbn [fst] in Hagent. rewrite Hagent. cbn [default from_option id].
  destruct (paint_history history) as [shown [[]|e]]; [|done].
  destruct prompt as [[|c text]|]; [done| |done].
  pose proof (run_agent_app (new_agent vs_id) (String c text) events
                (keep_agent (new_agent vs_id) app1)) as Happ.
  destruct (run_agent _ (String c text) events _) as [app3 t].
  cbv beta iota zeta. cbn [fst] in *.
  rewrite Happ. by rewrite ensure_vector_store_agent.
Qed.

(** X17. A stored item that makes the replay raise blocks the prompt: the
    script ends with that exception after showing the history up to the
    item, and the submitted text is neither echoed nor run. *)
Theorem script_blocked_by_history history prompt events app vs_id shown e :
  (ensure_vector_store app).2 = Ok vs_id →
  paint_history history = (shown, Raise e) →
  painted (script history prompt events app).2 = shown ∧
  turn (script history prompt events app).2 = None ∧
  script_outcome (script history prompt events app).2 = Raise e.
Proof.
  intros He Hh. unfold script.
  destruct (ensure_vector_store app) as [app1 [id|e']]; [|done].
  by rewrite Hh.
Qed.
End script_extras.

(** ** The uploads *)

Lemma prefix_image_not_text t :
  String.prefix "image/" t = true → String.prefix "text/" t = false.
Proof.
  destruct t as [|c t]; [done|]. cbn [String.prefix].
  destruct (Ascii.ascii_dec "t" c) as [<-|]; [|done].
  destruct (Ascii.ascii_dec "i" "t"); [discriminate|done].
Qed.

Section upload_extras.
Context {W S : Type} `{VectorStores W} `{Files W} `{Session S} `{PyEncode} `{PyRuntime}.
Implicit Types (st : Uploading W S) (file : UploadedFile).

Lemma upload_files_app pre post st :
  upload_files (pre ++ post) st
  = match upload_files pre st with
    | (st', Ok _) => upload_files post st'
    | (st', Raise e) => (st', Raise e)
    end.
Proof.
  revert st. induction pre as [|file pre IH]; intros st; [done|].
  cbn [app upload_files]. by destruct (upload_file file st) as [st' [[]|e]].
Qed.

(** X18. An uploaded image is handed to the conversation store as one
    item of the user that holds its data URI, and is previewed with that
    same URI; the upload leaves the backend and the session state alone.
    Replayed, the item shows the image of that URI in a bubble of the
    user: a refresh shows what the preview showed. *)
Theorem upload_image_is_replayed file st s :
  String.prefix "image/" (file_type file) = true →
  add_items (up_session st) [image_item (data_uri file)] = (s, Ok ()) →
  let st' := (upload_file file st).1 in
  (upload_file file st).2 = Ok () ∧
  up_app st' = up_app st ∧
  up_session st' = s ∧
  up_log st' = up_log st ++ [ItemsAdded [image_item (data_uri file)] (Ok ())] ∧
  up_shown st'
  = up_shown st ++ [OpenStatus "⏳ Uploading image...";
                    UpdateStatus "✅ Image uploaded" (Some "complete");
                    PreviewImage (data_uri file)] ∧
  paint_history [image_item (data_uri file)]
  = ([ShowBubble (PStr "user") [Image (PStr (data_uri file))]], Ok ()).
Proof.
  intros Himage Hadd st'. subst st'. unfold upload_file.
  rewrite (prefix_image_not_text _ Himage), Himage. unfold upload_image.
  cbn [show set_session up_session]. rewrite Hadd.
  cbn. rewrite <-!app_assoc. split_and!; reflexivity.
Qed.

(** X19. An uploaded text file is stored and then tied to the vector
    store that [ensure_vector_store] returned for this very upload, which
    is the store the session remembers afterwards. *)
Theorem upload_text_attaches file st app1 vs_id w2 file_id w3 :
  String.prefix "text/" (file_type file) = true →
  ensure_vector_store (up_app st) = (app1, Ok vs_id) →
  files_create (backend app1) (file_name file) (file_value file) = (w2, Ok file_id) →
  vector_stores_files_create w2 vs_id file_id = (w3, Ok ()) →
  let st' := (upload_file file st).1 in
  (upload_file file st).2 = Ok () ∧
  VECTOR_STORE_ID (session_state (up_app st')) = Some vs_id ∧
  backend (up_app st') = w3 ∧
  up_session st' = up_session st ∧
  up_log st'
  = up_log st ++ [FileCreated (file_name file) (file_value file) (Ok file_id);
                  FileAttached vs_id file_id (Ok ())].
Proof.
  intros Htext He Hf Ha st'. subst st'. unfold upload_file. rewrite Htext.
  pose proof (ensure_vector_store_remembers (up_app st) vs_id) as Hid.
  rewrite He in Hid. specialize (Hid eq_refl). cbn [fst] in Hid.
  unfold upload_text. cbn [show up_app]. rewrite He, Hf.
  cbn [logged set_backend set_app show up_app backend]. rewrite Ha.
  cbn. rewrite <-!app_assoc. by split_and!.
Qed.

(** X20. An upload that raises ends the handling of the prompt: the
    files after it are not uploaded, and the text of the prompt is
    neither echoed nor run. *)
Theorem submit_stops_at_failed_upload a prompt events st pre file post st1 st2 e :
  prompt_files prompt = pre ++ file :: post →
  upload_files pre st = (st1, Ok ()) →
  upload_file file st1 = (st2, Raise e) →
  uploading (submit a prompt events st) = st2 ∧
  echo (submit a prompt events st) = [] ∧
  submitted_turn (submit a prompt events st) = None ∧
  submit_outcome (submit a prompt events st) = Raise e.
Proof.
  intros Hfiles Hpre Hfile. unfold submit.
  rewrite Hfiles, upload_files_app, Hpre. cbn [upload_files]. by rewrite Hfile.
Qed.
End upload_extras.

(** ** The further properties at concrete inputs *)

Lemma stream_events_concatenates_witness :
  let events := [status_event "response.created"; text_delta "Hel";
                 code_delta "x="; text_delta "lo"; code_delta "1"] in
  response (stream_events events fresh_turn).1.1 = "Hello" ∧
  code_response (stream_events events fresh_turn).1.1 = "x=1".
Proof.
  intros events. apply (stream_events_concatenates events fresh_turn). reflexivity.
Defined.

Lemma stream_events_stops_witness :
  stream_events ([text_delta "Here: "] ++ partial_image "aGk" :: [text_delta "done"])
    fresh_turn
  = ({| response := "Here: ";
        code_response := EmptyString;
        image_placeholder := None;
        status_container := status_container fresh_turn |},
     [SetText "Here: "] ++ [], Raise BinasciiError).
Proof.
  eapply (stream_events_stops [text_delta "Here: "] (partial_image "aGk")
            [text_delta "done"] fresh_turn); reflexivity.
Defined.

Lemma handle_event_bad_image_witness :
  handle_event (partial_image "aGk") fresh_turn = (fresh_turn, [], Raise BinasciiError).
Proof. apply handle_event_bad_image. reflexivity. Defined.

Lemma paint_message_user_witness :
  paint_message {[ "role" := PStr "user"; "content" := PStr "what costs $5?" ]}
  = ([ShowBubble (PStr "user") [Write "what costs $5?"]], Ok ()).
Proof.
  destruct (paint_message_user
              {[ "role" := PStr "user"; "content" := PStr "what costs $5?" ]})
    as [Htext _]; [reflexivity|left; reflexivity|].
  apply Htext. reflexivity.
Defined.

Lemma replay_shows_streamed_text_witness :
  paint_message
    {[ "role" := PStr "assistant"; "type" := PStr "message";
       "content" := PList [PDict {[ "text" := PStr "It costs $5" ]}] ]}
  = ([ShowBubble (PStr "assistant") [Write "It costs \$5"]], Ok ()).
Proof.
  apply (replay_shows_streamed_text [text_delta "It costs "; text_delta "$5"]
           fresh_turn _ {[ "text" := PStr "It costs $5" ]} (PStr "assistant") []);
    reflexivity.
Defined.

Lemma script_keeps_agent_witness :
  let app := {| session_state := {| VECTOR_STORE_ID := Some "vs_old";
                                    agent := Some (new_agent "vs_old") |};
                backend := {| stores := []; outages := []; issued := 0 |};
                api_log := [] |} in
  agent (session_state (script [] (Some "hi") [text_delta "ok"] app).1)
  = Some (new_agent "vs_old") ∧
  ∀ t, turn (script [] (Some "hi") [text_delta "ok"] app).2 = Some t →
       streamed t = None ∨ ∃ message, streamed t = Some (new_agent "vs_old", message).
Proof.
  intros app.
  apply (script_keeps_agent [] (Some "hi") [text_delta "ok"] app (new_agent "vs_old")).
  reflexivity.
Defined.

Lemma script_builds_agent_witness :
  let app := new_session {| stores := [DEFAULT_VECTOR_STORE_ID];
                            outages := []; issued := 0 |} in
  agent (session_state (script [] None [] app).1)
  = Some (new_agent DEFAULT_VECTOR_STORE_ID) ∧
  file_search_ids (new_agent DEFAULT_VECTOR_STORE_ID) = [DEFAULT_VECTOR_STORE_ID].
Proof.
  intros app.
  eapply (script_builds_agent [] None [] app); reflexivity.
Defined.

Lemma script_blocked_by_history_witness :
  let app := new_session {| stores := [DEFAULT_VECTOR_STORE_ID];
                            outages := []; issued := 0 |} in
  let history := [ {[ "type" := PStr "web_search_call" ]};
                   {[ "type" := PStr "code_interpreter_call" ]} ] in
  let run := (script history (Some "hi") [text_delta "ok"] app).2 in
  painted run = [ShowBubble (PStr "ai") [Write "🔍 Searched the web..."];
                 ShowBubble (PStr "ai") []] ∧
  turn run = None ∧
  script_outcome run = Raise KeyError.
Proof.
  intros app history run.
  eapply (script_blocked_by_history history (Some "hi") [text_delta "ok"] app);
    reflexivity.
Defined.

Lemma upload_image_is_replayed_witness :
  let file := {| file_name := "p.png"; file_type := "image/png";
                 file_value := [Byte.x68; Byte.x69] |} in
  let st := new_upload (new_session {| stores := []; outages := []; issued := 0 |}) in
  let st' := (upload_file file st).1 in
  (upload_file file st).2 = Ok () ∧
  up_app st' = up_app st ∧
  up_session st' = [image_item "data:image/png;base64,aGk="] ∧
  up_log st' = up_log st ++ [ItemsAdded [image_item (data_uri file)] (Ok ())] ∧
  up_shown st'
  = up_shown st ++ [OpenStatus "⏳ Uploading image...";
                    UpdateStatus "✅ Image uploaded" (Some "complete");
                    PreviewImage (data_uri file)] ∧
  paint_history [image_item (data_uri file)]
  = ([ShowBubble (PStr "user") [Image (PStr (data_uri file))]], Ok ()).
Proof.
  intros file st.
  apply (upload_image_is_replayed file st [image_item "data:image/png;base64,aGk="]);
    reflexivity.
Defined.

Lemma upload_text_attaches_witness :
  let file := {| file_name := "notes.txt"; file_type := "text/plain";
                 file_value := [Byte.x68; Byte.x69] |} in
  let remote := {| stores := [DEFAULT_VECTOR_STORE_ID]; outages := []; issued := 0 |} in
  let st := new_upload (new_session remote) in
  let st' := (upload_file file st).1 in
  (upload_file file st).2 = Ok () ∧
  VECTOR_STORE_ID (session_state (up_app st')) = Some DEFAULT_VECTOR_STORE_ID ∧
  backend (up_app st') = remote ∧
  up_session st' = up_session st ∧
  up_log st'
  = up_log st ++ [FileCreated "notes.txt" [Byte.x68; Byte.x69] (Ok "file-notes.txt");
                  FileAttached DEFAULT_VECTOR_STORE_ID "file-notes.txt" (Ok ())].
Proof.
  intros file remote st.
  apply (upload_text_attaches file st (ensure_vector_store (up_app st)).1
           DEFAULT_VECTOR_STORE_ID remote "file-notes.txt" remote);
    reflexivity.
Defined.

Lemma submit_stops_at_failed_upload_witness :
  let text_file := {| file_name := "notes.txt"; file_type := "text/plain";
                      file_value := [Byte.x68] |} in
  let image_file := {| file_name := "p.png"; file_type := "image/png";
                       file_value := [Byte.x68; Byte.x69] |} in
  let prompt := {| prompt_text := "read my notes";
                   prompt_files := [image_file; text_file; image_file] |} in
  let st := new_upload (new_session {| stores := []; outages := [true; true];
                                       issued := 0 |}) in
  let result := submit (new_agent "vs_old") prompt [text_delta "ok"] st in
  up_session (uploading result) = [image_item (data_uri image_file)] ∧
  echo result = [] ∧
  submitted_turn result = None ∧
  submit_outcome result = Raise APIConnectionError.
Proof.
  intros text_file image_file prompt st result.
  destruct (submit_stops_at_failed_upload (new_agent "vs_old") prompt
              [text_delta "ok"] st [image_file] text_file [image_file]
              (upload_files [image_file] st).1
              (upload_file text_file (upload_files [image_file] st).1).1
              APIConnectionError)
    as (Hup & Hecho & Hturn & Hout); [reflexivity..|].
  split_and!; [|exact Hecho|exact Hturn|exact Hout].
  unfold result. rewrite Hup. reflexivity.
Defined.

(** ** Escaping and the size of the output *)

Lemma escape_dollar_head s t : escape_dollar s ≠ String "$" t.
Proof.
  destruct s as [|c s]; [done|]. rewrite escape_dollar_cons.
  case_bool_decide; congruence.
Qed.

Lemma unescape_dollar_cons c s :
  (∀ t, s ≠ String "$" t) →
  unescape_dollar (String c s) = String c (unescape_dollar s).
Proof.
  intros Hhead. destruct s as [|c' s]; [done|]. cbn [unescape_dollar].
  destruct (bool_decide (c' = "$"%char)) eqn:Hc'.
  - apply bool_decide_eq_true in Hc' as ->. by destruct (Hhead s).
  - by rewrite andb_false_r.
Qed.

Lemma unescape_escape_dollar s : unescape_dollar (escape_dollar s) = s.
Proof.
  induction s as [|c s IH]; [done|]. rewrite escape_dollar_cons.
  case_bool_decide as Hc.
  - subst c. cbn [unescape_dollar]. rewrite !bool_decide_eq_true_2 by done.
    cbn [andb]. by rewrite IH.
  - rewrite unescape_dollar_cons by apply escape_dollar_head. by rewrite IH.
Qed.

(** X21. The escaping loses nothing: dropping the backslash before each
    dollar sign gives the text back, so two different texts are never
    shown as the same escaped text. *)
Theorem escape_dollar_injective :
  (∀ s, unescape_dollar (escape_dollar s) = s) ∧
  (∀ s t, escape_dollar s = escape_dollar t → s = t).
Proof.
  split; [apply unescape_escape_dollar|].
  intros s t Heq. rewrite <-(unescape_escape_dollar s), <-(unescape_escape_dollar t).
  by rewrite Heq.
Qed.

Section output_size.
Context `{PyRuntime}.

Lemma handle_event_one_op event acc : length (handle_event event acc).1.2 ≤ 1.
Proof.
  destruct (is_raw event) eqn:Hraw.
  2: { rewrite handle_event_not_raw by done. cbn. lia. }
  destruct (data event) as [d|] eqn:Hd.
  2: { rewrite handle_event_no_data by done. cbn. lia. }
  destruct (is_type d "response.output_text.delta") eqn:Htext.
  { rewrite (handle_event_text event d) by done. destruct (delta d); cbn; lia. }
  destruct (is_type d "response.code_interpreter_call_code.delta") eqn:Hcode.
  { rewrite (handle_event_code event d) by done. destruct (delta d); cbn; lia. }
  destruct (is_type d "response.image_generation_call.partial_image") eqn:Himage.
  { rewrite (handle_event_image event d) by done.
    destruct (partial_image_b64 d) as [payload|]; [|cbn; lia].
    destruct (b64decode payload); cbn; lia. }
  rewrite (handle_event_status event d) by done. unfold on_status.
  destruct (update_status_cases (status_container acc) (data_type d))
    as [->|(l & s & _ & ->)]; cbn; lia.
Qed.

(** X22. An event makes the loop emit one render operation at most: a
    status update, or a text, a code or an image, never two of them. A
    stream therefore emits no more operations than it has events. *)
Theorem stream_events_output_size events acc :
  length (stream_events events acc).1.2 ≤ length events.
Proof.
  revert acc. induction events as [|event events IH]; intros acc; [done|].
  cbn [stream_events length]. unfold turn_bind.
  pose proof (handle_event_one_op event acc) as Hone.
  destruct (handle_event event acc) as [[acc1 shown1] [[]|e]]; cbn [fst snd] in *;
    [|lia].
  specialize (IH acc1). destruct (stream_events events acc1) as [[acc2 shown2] r].
  cbn [fst snd] in *. rewrite length_app. lia.
Qed.
End output_size.
